(** * Point-name extraction: a shallow embedding of [extract_point_names.py]

    The parsing core of the script is four functions:
    [clean_ocr_artifacts], [is_valid_point_name],
    [extract_point_name_from_section] and [extract_point_names_from_text].
    They are embedded here as executable Rocq functions and the properties
    stated about them in the specification are proved or refuted.

    Modelling choices.
    - A Python [str] is a [list ascii].  The character predicates
      ([isspace], [isdigit], [isalpha], [isupper]) and [upper] follow
      CPython on the ASCII code points 0..127.  A code 128..255 stands for
      a character that is not whitespace, not a digit, not alphabetic and
      has no case.
    - Operations that can raise in Python ([s[i]], [l[i]], [m.group(i)])
      return in the error monad [result]; the functions that use them are
      monadic, so that "does not raise" is a theorem and not a convention.
    - [for ... break/continue] loops are folds whose body answers [Next] or
      [Break]. *)

From Stdlib Require Import Ascii String.
From Stdlib Require Import List Bool Arith Lia.
From Stdlib Require Import Permutation Sorted.
Import ListNotations.

Local Open Scope string_scope.
Local Open Scope nat_scope.
Local Open Scope bool_scope.
Local Open Scope list_scope.

(** ** Strings *)

Definition str := list ascii.

(** String literals are read as lists of characters. *)
Definition lit (s : string) : str := list_ascii_of_string s.
Coercion lit : string >-> str.

Definition is_empty {A : Type} (l : list A) : bool :=
  match l with [] => true | _ :: _ => false end.

(** ** Exceptions *)

Inductive exn : Type :=
| IndexError.

Inductive result (A : Type) : Type :=
| Ok (a : A)
| Raise (e : exn).
Arguments Ok {A} a.
Arguments Raise {A} e.

Definition ret {A : Type} (a : A) : result A := Ok a.

Definition bind {A B : Type} (m : result A) (k : A -> result B) : result B :=
  match m with
  | Ok a => k a
  | Raise e => Raise e
  end.

Notation "x <- m ;; k" := (bind m (fun x => k))
  (at level 61, m at next level, right associativity).

(** [l[i]] for a non-negative index. *)
Definition index {A : Type} (l : list A) (i : nat) : result A :=
  match nth_error l i with
  | Some a => Ok a
  | None => Raise IndexError
  end.

(** Loop control: the body of a [for] loop either goes on to the next
    element or breaks out, in both cases with the updated loop state. *)
Inductive ctl (A : Type) : Type :=
| Next (a : A)
| Break (a : A).
Arguments Next {A} a.
Arguments Break {A} a.

Fixpoint for_each {A S : Type} (body : S -> A -> result (ctl S))
                  (st : S) (l : list A) : result S :=
  match l with
  | [] => ret st
  | x :: l' =>
      r <- body st x ;;
      match r with
      | Next st' => for_each body st' l'
      | Break st' => ret st'
      end
  end.

(** ** Characters *)

Definition code (c : ascii) : nat := nat_of_ascii c.

Definition between (lo hi : nat) (c : ascii) : bool :=
  (lo <=? code c) && (code c <=? hi).

(** [c.isspace()]: TAB LF VT FF CR, FS GS RS US, and space. *)
Definition isspace (c : ascii) : bool :=
  between 9 13 c || between 28 31 c || (code c =? 32).

Definition isdigit (c : ascii) : bool := between 48 57 c.
Definition isupper (c : ascii) : bool := between 65 90 c.
Definition islower (c : ascii) : bool := between 97 122 c.
Definition isalpha (c : ascii) : bool := isupper c || islower c.

Definition upper_char (c : ascii) : ascii :=
  if islower c then ascii_of_nat (code c - 32) else c.

(** ** String operations *)

(** [s.upper()] *)
Definition upper (s : str) : str := map upper_char s.

(** [s.isdigit()]: false on the empty string. *)
Definition str_isdigit (s : str) : bool :=
  negb (is_empty s) && forallb isdigit s.

(** [s.startswith(p)] *)
Fixpoint startswith (p s : str) : bool :=
  match p, s with
  | [], _ => true
  | _ :: _, [] => false
  | a :: p', b :: s' => Ascii.eqb a b && startswith p' s'
  end.

(** [sub in s] *)
Fixpoint contains (sub s : str) : bool :=
  startswith sub s ||
  match s with
  | [] => false
  | _ :: s' => contains sub s'
  end.

(** [s.lstrip()], [s.rstrip()], [s.strip()] *)
Fixpoint lstrip (s : str) : str :=
  match s with
  | [] => []
  | c :: s' => if isspace c then lstrip s' else s
  end.

Fixpoint rstrip (s : str) : str :=
  match s with
  | [] => []
  | c :: s' =>
      match rstrip s' with
      | [] => if isspace c then [] else [c]
      | r => c :: r
      end
  end.

Definition strip (s : str) : str := rstrip (lstrip s).

(** [s.split()]: the maximal runs of non-whitespace characters. *)
Fixpoint split_ws (s : str) : list str :=
  match s with
  | [] => []
  | c :: s' =>
      if isspace c then split_ws s'
      else
        match s' with
        | [] => [[c]]
        | d :: _ =>
            if isspace d then [c] :: split_ws s'
            else
              match split_ws s' with
              | t :: ts => (c :: t) :: ts
              | [] => [[c]]
              end
        end
  end.

(** [s.split(sep)] for a one-character separator: never the empty list. *)
Fixpoint split_on (sep : ascii) (s : str) : list str :=
  match s with
  | [] => [[]]
  | c :: s' =>
      if Ascii.eqb c sep then [] :: split_on sep s'
      else
        match split_on sep s' with
        | t :: ts => (c :: t) :: ts
        | [] => [[c]]
        end
  end.

(** [sep.join(l)] *)
Fixpoint join (sep : str) (l : list str) : str :=
  match l with
  | [] => []
  | [t] => t
  | t :: l' => t ++ sep ++ join sep l'
  end.

(** [re.sub(r'\s+', ' ', s)]: every maximal run of whitespace becomes one
    space; the space is emitted at the last character of the run. *)
Fixpoint collapse_spaces (s : str) : str :=
  match s with
  | [] => []
  | c :: s' =>
      if isspace c then
        match s' with
        | [] => [" "%char]
        | d :: _ => if isspace d then collapse_spaces s'
                    else " "%char :: collapse_spaces s'
        end
      else c :: collapse_spaces s'
  end.

(** ** A backtracking matcher for the row pattern

    The only pattern given to [re.match] is a sequence of greedy repetitions
    of character classes.  [re_match] tries, for each piece from left to
    right, the longest run first and gives characters back one at a time
    while the rest of the pattern fails; it answers the text taken by each
    piece.  It is anchored at the start and not at the end, as [re.match]. *)

Record piece : Type := Piece {
  piece_class : ascii -> bool;
  piece_min : nat
}.

Fixpoint span_len (cls : ascii -> bool) (s : str) : nat :=
  match s with
  | [] => 0
  | c :: s' => if cls c then S (span_len cls s') else 0
  end.

(** Try the lengths [k], [k-1], ... down to [lo] for the current piece; the
    first one after which the rest of the pattern matches wins. *)
Fixpoint backtrack (rest : str -> option (list str)) (lo : nat) (s : str)
                   (k : nat) : option (list str) :=
  if k <? lo then None
  else
    match rest (skipn k s) with
    | Some gs => Some (firstn k s :: gs)
    | None =>
        match k with
        | 0 => None
        | S k' => backtrack rest lo s k'
        end
    end.

Fixpoint re_match (ps : list piece) (s : str) : option (list str) :=
  match ps with
  | [] => Some []
  | p :: ps' =>
      backtrack (re_match ps') (piece_min p) s (span_len (piece_class p) s)
  end.

Definition plus (cls : ascii -> bool) : piece := Piece cls 1.
Definition star (cls : ascii -> bool) : piece := Piece cls 0.

(** [\d], [\s], [[|\[\s]] and [.] *)
Definition re_digit : ascii -> bool := isdigit.
Definition re_space : ascii -> bool := isspace.
Definition re_sep (c : ascii) : bool :=
  Ascii.eqb c "|" || Ascii.eqb c "[" || isspace c.
Definition re_dot (c : ascii) : bool := negb (Ascii.eqb c "010").

(** [r'^(\d+)\s*[|\[\s]+(.+)'] *)
Definition row_pattern : list piece :=
  [plus re_digit; star re_space; plus re_sep; plus re_dot].

(** [match.group(2)]: the text of the fourth piece of [row_pattern]. *)
Definition group2 (m : list str) : result str := index m 3.

(** ** Constants of the script *)

Definition MAX_NAME_TOKENS : nat := 10.
Definition MAX_SMALL_NUMBER_LENGTH : nat := 2.

(** ** [clean_ocr_artifacts] *)

(** The class [[|\[\](){}\_]]. *)
Definition artifact (c : ascii) : bool :=
  existsb (Ascii.eqb c) (lit "|[](){}_").

(** [re.sub(r'[|\[\](){}\_]', '', token)] *)
Definition remove_artifacts (token : str) : str :=
  filter (fun c => negb (artifact c)) token.

Definition clean_ocr_artifacts (token : str) : result str :=
  let cleaned := remove_artifacts token in
  fix_l <- (if startswith "l" cleaned && (1 <? length cleaned)
            then c <- index cleaned 1 ;; ret (isupper c)
            else ret false) ;;
  let cleaned := if fix_l then skipn 1 cleaned else cleaned in
  let cleaned := if startswith "/" cleaned && (1 <? length cleaned)
                 then skipn 1 cleaned else cleaned in
  ret (strip cleaned).

(** ** [is_valid_point_name] *)

Definition is_valid_point_name (name : str) : bool :=
  if is_empty name || is_empty (strip name) then false
  else
    let name_upper := strip (upper name) in
    if contains "SPARE" name_upper then false
    else if length (strip name) <=? 1 then false
    else if negb (existsb isalpha name) then false
    else true.

(** ** [extract_point_name_from_section] *)

Definition stop_keywords : list str :=
  [lit "CLOSE"; lit "OPEN"; lit "NORMAL"; lit "ALARM"; lit "AUTO";
   lit "SOLID"; lit "MANUAL"; lit "RK"; lit "DI";
   lit "[or"; lit "[ot"; lit "[pI"; lit "[oI"; lit "[dI"].

(** [any(keyword in token.upper() for keyword in stop_keywords)] *)
Definition hits_stop_keyword (token : str) : bool :=
  existsb (fun keyword => contains keyword (upper token)) stop_keywords.

(** The body of [for token in tokens]. *)
Definition token_body (name_tokens : list str) (token : str)
  : result (ctl (list str)) :=
  if hits_stop_keyword token then ret (Break name_tokens)
  else
    cleaned <- clean_ocr_artifacts token ;;
    if is_empty cleaned || (length cleaned <? 1) then ret (Next name_tokens)
    else if str_isdigit cleaned && (0 <? length name_tokens) then
      if length cleaned <=? MAX_SMALL_NUMBER_LENGTH
      then ret (Break (name_tokens ++ [cleaned]))
      else ret (Break name_tokens)
    else
      let name_tokens := name_tokens ++ [cleaned] in
      if MAX_NAME_TOKENS <=? length name_tokens then ret (Break name_tokens)
      else ret (Next name_tokens).

(** The list [name_tokens] when the loop is left. *)
Definition collect_name_tokens (tokens : list str) : result (list str) :=
  for_each token_body [] tokens.

Definition extract_point_name_from_section (text : str) : result str :=
  let tokens := split_ws text in
  if is_empty tokens then ret []
  else
    name_tokens <- collect_name_tokens tokens ;;
    let result := strip (join " " name_tokens) in
    let result := collapse_spaces result in
    ret result.

(** ** [extract_point_names_from_text] *)

Definition skip_markers : list str :=
  [lit "PLOT BY:"; lit ".dwg"; lit "DIAG"; lit "NOTE"; lit "COEFFICIENT";
   lit "OFFSET"].

(** The loop state: the flag [in_table] and the list [point_names]. *)
Definition scan_state : Type := (bool * list str)%type.

(** The body of [for line in lines].  It never breaks. *)
Definition line_body (st : scan_state) (line : str)
  : result (ctl scan_state) :=
  let '(in_table, point_names) := st in
  let line := strip line in
  if is_empty line then ret (Next st)
  else if contains "POINT NAME" (upper line) then ret (Next (true, point_names))
  else if existsb (fun skip => contains skip line) skip_markers
  then ret (Next st)
  else
    match re_match row_pattern line with
    | Some m =>
        g <- group2 m ;;
        let remainder := strip g in
        let sections := split_on "|" remainder in
        s0 <- index sections 0 ;;
        let first_section := strip s0 in
        point_name <- extract_point_name_from_section first_section ;;
        if negb (is_empty point_name) && is_valid_point_name point_name
        then ret (Next (in_table, point_names ++ [point_name]))
        else ret (Next st)
    | None => ret (Next st)
    end.

Definition extract_point_names_from_text (text : str)
  : result (list str) :=
  let lines := split_on "010" text in
  st <- for_each line_body (false, []) lines ;;
  ret (snd st).

(** A line feed, for writing multi-line documents. *)
Definition LF : str := ["010"%char].

(** [chr(10).join(lines)]: a document given by its lines. *)
Definition document (lines : list str) : str := join LF lines.

(** ** The token cleaner as the specification words it

    Used only to compare with [clean_ocr_artifacts]. *)

Fixpoint delete_char (x : ascii) (s : str) : str :=
  match s with
  | [] => []
  | c :: s' => if Ascii.eqb c x then delete_char x s' else c :: delete_char x s'
  end.

(** Delete every occurrence of each listed character. *)
Definition delete_chars (xs : list ascii) (s : str) : str :=
  fold_right delete_char s xs.

(** Drop a leading "l" that stands before an uppercase character. *)
Definition spec_drop_l (s : str) : str :=
  match s with
  | a :: c :: r => if Ascii.eqb a "l" && isupper c then c :: r else s
  | _ => s
  end.

(** Drop a leading "/" of a string of length greater than one. *)
Definition spec_drop_slash (s : str) : str :=
  match s with
  | a :: c :: r => if Ascii.eqb a "/" then c :: r else s
  | _ => s
  end.

Definition spec_clean (token : str) : str :=
  strip (spec_drop_slash (spec_drop_l
    (delete_chars ["|"; "["; "]"; "("; ")"; "{"; "}"; "_"]%char token))).

(** ** Predicates used in the statements *)

(** A non-empty string without whitespace: what [s.split()] produces. *)
Definition spaceless (t : str) : Prop :=
  t <> [] /\ Forall (fun c => isspace c = false) t.

(** A spaceless string without any of the deleted characters. *)
Definition clean_token (t : str) : Prop :=
  spaceless t /\ Forall (fun c => artifact c = false) t.

(** While the token loop runs, an all-digit token can only stand first. *)
Definition digits_lead_only (acc : list str) : Prop :=
  forall i tok, nth_error acc i = Some tok -> str_isdigit tok = true -> i = 0.

(** When the token loop is left, an all-digit token that is not the first
    is the last one and has at most two digits. *)
Definition digits_lead_or_close (acc : list str) : Prop :=
  forall i tok, nth_error acc i = Some tok -> str_isdigit tok = true ->
    0 < i -> S i = length acc /\ length tok <= 2.

(** What holds of [name_tokens] while the token loop runs, and once it is
    left. *)
Definition loop_running (acc : list str) : Prop :=
  Forall clean_token acc /\ digits_lead_only acc.

Definition loop_left (acc : list str) : Prop :=
  Forall clean_token acc /\ digits_lead_or_close acc.

(** A line that the line loop passes over: blank, a header, a metadata line,
    or one that the row pattern does not match. *)
Definition line_is_skipped (line : str) : bool :=
  let line := strip line in
  is_empty line
  || contains "POINT NAME" (upper line)
  || existsb (fun skip => contains skip line) skip_markers
  || match re_match row_pattern line with
     | None => true
     | Some _ => false
     end.

(** [m] cuts a prefix of [s] into one run per piece of [ps], each run made
    of characters of the piece's class and at least as long as its minimum. *)
Fixpoint cut_by (ps : list piece) (s : str) (m : list str) : Prop :=
  match ps, m with
  | [], [] => True
  | p :: ps', g :: gs =>
      forallb (piece_class p) g = true /\
      piece_min p <= length g /\
      exists s', s = g ++ s' /\ cut_by ps' s' gs
  | _, _ => False
  end.

(** What the validator rejects, condition by condition. *)
Definition blank (name : str) : Prop :=
  name = [] \/ forallb isspace name = true.

(** What every name appended by the line loop is: the single-space join of
    the tokens the token loop collected, not empty, and valid. *)
Definition extracted (name : str) : Prop :=
  exists name_tokens,
    name = join " " name_tokens /\
    loop_left name_tokens /\
    name <> [] /\
    is_valid_point_name name = true.

(** The string begins with a lowercase "l" followed by an uppercase
    character: the first correction pattern of the cleaner. *)
Definition begins_l_upper (s : str) : bool :=
  match s with
  | a :: c :: _ => Ascii.eqb a "l" && isupper c
  | _ => false
  end.

(** The stop keywords written in capitals, and the bracketed markers. *)
Definition capital_keywords : list str := firstn 9 stop_keywords.
Definition bracket_markers : list str := skipn 9 stop_keywords.

(** The three-line document of the specification's last example. *)
Definition header_row_spare_document : str :=
  document [lit "NO. | POINT NAME | STATE";
            lit "1 | Pump 1 Run Status | CLOSE";
            lit "2 | Spare"].

(** The names one line adds to [point_names]: what the body of the line loop
    appends when it is run on that line alone. *)
Definition line_names (line : str) : list str :=
  match line_body (false, []) line with
  | Ok (Next (_, names)) => names
  | _ => []
  end.

(** ** The orchestration layer: [main] and what it calls

    The functions around the parsing core talk to the outside world: PDF
    libraries, the OCR tools, the file system, the spreadsheet library.
    What the outside world answers is a parameter of the model; what the
    script does with the answers is modelled as written.  Messages printed
    on the way are left out. *)

(** Exceptions seen by the orchestration layer: those of the parsing core,
    a missing dict key, and whatever a library or a subprocess raises. *)
Inductive exception : Type :=
| Builtin (e : exn)
| KeyError
| External.

Inductive outcome (A : Type) : Type :=
| Returns (a : A)
| Raises (e : exception).
Arguments Returns {A} a.
Arguments Raises {A} e.

Definition lift {A : Type} (r : result A) : outcome A :=
  match r with
  | Ok a => Returns a
  | Raise e => Raises (Builtin e)
  end.

Definition and_then {A B : Type} (m : outcome A) (k : A -> outcome B)
  : outcome B :=
  match m with
  | Returns a => k a
  | Raises e => Raises e
  end.

Notation "x <-- m ;; k" := (and_then m (fun x => k))
  (at level 61, m at next level, right associativity).

(** [try: body / except Exception as e: handler] *)
Definition try_except {A : Type} (body : outcome A)
           (handler : exception -> outcome A) : outcome A :=
  match body with
  | Returns a => Returns a
  | Raises e => handler e
  end.

(** [[f(x) for x in l]] for an [f] that can raise. *)
Fixpoint for_all {A B : Type} (f : A -> outcome B) (l : list A)
  : outcome (list B) :=
  match l with
  | [] => Returns []
  | x :: l' => y <-- f x ;; ys <-- for_all f l' ;; Returns (y :: ys)
  end.

(** A [for] loop over a body that can raise; no body of this layer breaks. *)
Fixpoint for_files {A S : Type} (body : S -> A -> outcome S)
                   (st : S) (l : list A) : outcome S :=
  match l with
  | [] => Returns st
  | x :: l' => st' <-- body st x ;; for_files body st' l'
  end.

(** *** More string operations *)

Definition lower_char (c : ascii) : ascii :=
  if isupper c then ascii_of_nat (code c + 32) else c.

(** [s.lower()] *)
Definition lower (s : str) : str := map lower_char s.

(** [s.endswith(p)] *)
Definition endswith (p s : str) : bool := startswith (rev p) (rev s).

(** [a == b] *)
Fixpoint str_eqb (a b : str) : bool :=
  match a, b with
  | [], [] => true
  | x :: a', y :: b' => Ascii.eqb x y && str_eqb a' b'
  | _, _ => false
  end.

(** [a <= b]: the order of the code points, the shorter string first. *)
Fixpoint str_leb (a b : str) : bool :=
  match a, b with
  | [], _ => true
  | _ :: _, [] => false
  | x :: a', y :: b' =>
      if code x <? code y then true
      else if code y <? code x then false
      else str_leb a' b'
  end.

Fixpoint insert_sorted (x : str) (l : list str) : list str :=
  match l with
  | [] => [x]
  | y :: l' => if str_leb x y then x :: l else y :: insert_sorted x l'
  end.

(** [sorted(l)] for a list of strings. *)
Definition sorted (l : list str) : list str := fold_right insert_sorted [] l.

(** *** Dictionaries with string keys, in insertion order *)

Definition dict (V : Type) : Type := list (str * V).

Fixpoint dict_lookup {V : Type} (d : dict V) (k : str) : option V :=
  match d with
  | [] => None
  | (k', v) :: d' => if str_eqb k' k then Some v else dict_lookup d' k
  end.

(** [d[k]] *)
Definition dict_getitem {V : Type} (d : dict V) (k : str) : outcome V :=
  match dict_lookup d k with
  | Some v => Returns v
  | None => Raises KeyError
  end.

(** [d.get(k, default)] *)
Definition dict_get {V : Type} (d : dict V) (k : str) (default : V) : V :=
  match dict_lookup d k with
  | Some v => v
  | None => default
  end.

(** [d[k] = v] *)
Fixpoint dict_setitem {V : Type} (d : dict V) (k : str) (v : V) : dict V :=
  match d with
  | [] => [(k, v)]
  | (k', v') :: d' =>
      if str_eqb k' k then (k', v) :: d' else (k', v') :: dict_setitem d' k v
  end.

(** *** [extract_text_with_ocr] and [extract_text_from_pdf] *)

(** What the outside world answers for one PDF file.
    - [plumber], [pypdf2]: [None] when the module could not be imported;
      otherwise what [extract_text()] gives page by page ([None] standing
      for Python's [None]), or the exception raised while the file is
      opened and read.
    - [tools]: the answer of [check_ocr_tools()].
    - [pdftoppm]: the entries of the temporary directory once the PDF is
      converted, or the exception raised on the way.
    - [tesseract]: the text recognised in an image, or the exception of a
      failed run. *)
Record pdf_world : Type := World {
  plumber : option (outcome (list (option str)));
  pypdf2 : option (outcome (list (option str)));
  tools : bool * bool;
  pdftoppm : outcome (list str);
  tesseract : str -> outcome str
}.

Definition extract_text_with_ocr (w : pdf_world) : outcome str :=
  listing <-- pdftoppm w ;;
  let image_files := sorted (filter (endswith ".png") listing) in
  if is_empty image_files then Returns []
  else
    all_text <-- for_all (tesseract w) image_files ;;
    Returns (join LF all_text).

(** The loop [for page in pages: text = page.extract_text(); if text:
    text_parts.append(text)]. *)
Definition collect_text_parts (pages : list (option str)) : list str :=
  flat_map (fun text =>
              match text with
              | Some t => if is_empty t then [] else [t]
              | None => []
              end) pages.

(** Both text blocks answer [Some full_text] when they return and [None]
    when control falls through to what follows. *)
Definition extract_text_from_pdf (w : pdf_world) : outcome str :=
  by_plumber <--
    match plumber w with
    | Some pages =>
        try_except
          (pages <-- pages ;;
           let text_parts := collect_text_parts pages in
           let full_text := join LF text_parts in
           if negb (is_empty (strip full_text)) then Returns (Some full_text)
           else Returns None)
          (fun _ => Returns None)
    | None => Returns None
    end ;;
  match by_plumber with
  | Some full_text => Returns full_text
  | None =>
      by_pypdf2 <--
        match pypdf2 w with
        | Some pages =>
            try_except
              (pages <-- pages ;;
               let text_parts := collect_text_parts pages in
               let full_text := join LF text_parts in
               if negb (is_empty (strip full_text))
               then Returns (Some full_text)
               else Returns None)
              (fun _ => Returns None)
        | None => Returns None
        end ;;
      match by_pypdf2 with
      | Some full_text => Returns full_text
      | None =>
          let '(tesseract_available, pdftoppm_available) := tools w in
          if tesseract_available && pdftoppm_available then
            try_except (extract_text_with_ocr w) (fun _ => Returns [])
          else Returns []
      end
  end.

(** *** The spreadsheet *)

Record cell : Type := Cell {
  cell_value : option str;
  cell_bold : bool
}.

Definition empty_cell : cell := Cell None false.

(** A worksheet: the cells that were touched, by row and column. *)
Definition worksheet : Type := list (nat * nat * cell).

Fixpoint ws_find (ws : worksheet) (row col : nat) : option cell :=
  match ws with
  | [] => None
  | (r, c, x) :: ws' =>
      if (r =? row) && (c =? col) then Some x else ws_find ws' row col
  end.

(** [ws.cell(row, col)], read. *)
Definition ws_cell (ws : worksheet) (row col : nat) : cell :=
  match ws_find ws row col with
  | Some x => x
  | None => empty_cell
  end.

Fixpoint ws_store (ws : worksheet) (row col : nat) (x : cell) : worksheet :=
  match ws with
  | [] => [(row, col, x)]
  | (r, c, y) :: ws' =>
      if (r =? row) && (c =? col) then (r, c, x) :: ws'
      else (r, c, y) :: ws_store ws' row col x
  end.

(** [ws.cell(row, col, value)] *)
Definition ws_set_value (ws : worksheet) (row col : nat) (value : str)
  : worksheet :=
  ws_store ws row col (Cell (Some value) (cell_bold (ws_cell ws row col))).

(** [ws.cell(row, col).font = Font(bold=True)] *)
Definition ws_set_bold (ws : worksheet) (row col : nat) : worksheet :=
  ws_store ws row col (Cell (cell_value (ws_cell ws row col)) true).

(** A workbook: its sheets by title, in order. *)
Definition workbook : Type := list (str * worksheet).

(** [Workbook()] comes with one sheet, titled "Sheet". *)
Definition new_workbook : workbook := [(lit "Sheet", [])].

(** [wb.remove(wb[title])] *)
Fixpoint wb_remove (wb : workbook) (title : str) : workbook :=
  match wb with
  | [] => []
  | (t, ws) :: wb' => if str_eqb t title then wb' else (t, ws) :: wb_remove wb' title
  end.

(** [for i, name in enumerate(point_names, start): ws.cell(i, 1, name)] *)
Fixpoint write_names (ws : worksheet) (start : nat) (point_names : list str)
  : worksheet :=
  match point_names with
  | [] => ws
  | name :: rest => write_names (ws_set_value ws start 1 name) (S start) rest
  end.

(** The body of [for sheet_name in ['Status', 'Analog']]; [create_sheet]
    appends the new sheet to the workbook. *)
Definition sheet_body (point_names_by_sheet : dict (list str))
           (wb : workbook) (sheet_name : str) : workbook :=
  let ws : worksheet := [] in
  let ws := ws_set_value ws 1 1
              (lit "CONTRL_D DNP " ++ sheet_name
               ++ lit " Point List - Point Names Only") in
  let ws := ws_set_bold ws 1 1 in
  let ws := ws_set_value ws 3 1 "Point Names Extracted from PDF" in
  let ws := ws_set_bold ws 3 1 in
  let ws := ws_set_value ws 5 1 "POINT NAME" in
  let ws := ws_set_bold ws 5 1 in
  let point_names := dict_get point_names_by_sheet sheet_name [] in
  let ws := write_names ws 6 point_names in
  wb ++ [(sheet_name, ws)].

(** The workbook that [create_output_excel] saves. *)
Definition create_output_excel (point_names_by_sheet : dict (list str))
  : workbook :=
  let wb := new_workbook in
  let wb := if existsb (str_eqb "Sheet") (map fst wb)
            then wb_remove wb "Sheet" else wb in
  fold_left (sheet_body point_names_by_sheet) [lit "Status"; lit "Analog"] wb.

(** *** [main] *)

Definition STATUS_INDICATORS : list str := [lit "sh1"; lit "status"].
Definition ANALOG_INDICATORS : list str := [lit "sh2"; lit "analog"].

(** The sheet type [main] derives from a file name. *)
Definition sheet_type_of (pdf_file : str) : str :=
  let filename_lower := lower pdf_file in
  if existsb (fun indicator => contains indicator filename_lower)
             STATUS_INDICATORS
  then lit "Status"
  else if existsb (fun indicator => contains indicator filename_lower)
                  ANALOG_INDICATORS
  then lit "Analog"
  else lit "Status".

(** The body of [for pdf_file in sorted(pdf_files)]: the [try] block and
    its [except Exception], which leaves the dict as it was. *)
Definition pdf_body (world : str -> pdf_world)
           (point_names_by_sheet : dict (list str)) (pdf_file : str)
  : outcome (dict (list str)) :=
  try_except
    (text <-- extract_text_from_pdf (world pdf_file) ;;
     if is_empty (strip text) then Returns point_names_by_sheet
     else
       point_names <-- lift (extract_point_names_from_text text) ;;
       let sheet_type := sheet_type_of pdf_file in
       collected <-- dict_getitem point_names_by_sheet sheet_type ;;
       Returns (dict_setitem point_names_by_sheet sheet_type
                  (collected ++ point_names)))
    (fun _ => Returns point_names_by_sheet).

(** [main]: the exit code, and the workbook when one is saved.
    [input_exists] is [os.path.exists(input_folder)], [listing] is
    [os.listdir(input_folder)], [world] what the outside world answers for
    each file of the folder. *)
Definition main (input_exists : bool) (listing : list str)
           (world : str -> pdf_world) : outcome (nat * option workbook) :=
  if negb input_exists then Returns (1, None)
  else
    let pdf_files := filter (endswith ".pdf") listing in
    if is_empty pdf_files then Returns (1, None)
    else
      let point_names_by_sheet : dict (list str) :=
        [(lit "Status", []); (lit "Analog", [])] in
      point_names_by_sheet <--
        for_files (pdf_body world) point_names_by_sheet (sorted pdf_files) ;;
      Returns (0, Some (create_output_excel point_names_by_sheet)).

(** The names one file adds to its sheet: those of its text, when a
    non-blank text could be obtained. *)
Definition file_names (world : str -> pdf_world) (pdf_file : str) : list str :=
  match extract_text_from_pdf (world pdf_file) with
  | Returns text =>
      if is_empty (strip text) then []
      else
        match extract_point_names_from_text text with
        | Ok names => names
        | Raise _ => []
        end
  | Raises _ => []
  end.

(** The files of a list that go to a given sheet. *)
Definition files_of_sheet (sheet : str) (files : list str) : list str :=
  filter (fun pdf_file => str_eqb (sheet_type_of pdf_file) sheet) files.

(** The five header rows of a sheet and the names below them, as they can
    be read back from the worksheet. *)
Definition sheet_layout (sheet_name : str) (point_names : list str)
           (ws : worksheet) : Prop :=
  ws_cell ws 1 1
  = Cell (Some (lit "CONTRL_D DNP " ++ sheet_name
                ++ lit " Point List - Point Names Only")) true /\
  ws_cell ws 3 1 = Cell (Some (lit "Point Names Extracted from PDF")) true /\
  ws_cell ws 5 1 = Cell (Some (lit "POINT NAME")) true /\
  (forall i, ws_cell ws (6 + i) 1 = Cell (nth_error point_names i) false) /\
  (forall row col,
      col <> 1 \/ row = 0 \/ row = 2 \/ row = 4 -> ws_cell ws row col = empty_cell).

(** * Properties *)

(** ** Characters *)

Ltac by_cases_on_char c :=
  destruct c as [[] [] [] [] [] [] [] []]; vm_compute; try reflexivity;
  try discriminate; auto.

Lemma isalpha_not_space c : isalpha c = true -> isspace c = false.
Proof. by_cases_on_char c. Qed.

Lemma isalpha_not_artifact c : isalpha c = true -> artifact c = false.
Proof. by_cases_on_char c. Qed.

Lemma isalpha_not_digit c : isalpha c = true -> isdigit c = false.
Proof. by_cases_on_char c. Qed.

Lemma isalpha_upper_char c : isalpha (upper_char c) = isalpha c.
Proof. by_cases_on_char c. Qed.

Lemma islower_upper_char c : islower (upper_char c) = false.
Proof. by_cases_on_char c. Qed.

Lemma isupper_isalpha c : isupper c = true -> isalpha c = true.
Proof. unfold isalpha. intros ->. reflexivity. Qed.

Lemma artifact_spec c :
  artifact c =
  existsb (Ascii.eqb c) ["|"; "["; "]"; "("; ")"; "{"; "}"; "_"]%char.
Proof. reflexivity. Qed.

(** ** The error monad and loops *)

Lemma bind_Ok {A B : Type} (m : result A) (k : A -> result B) (b : B) :
  bind m k = Ok b -> exists a, m = Ok a /\ k a = Ok b.
Proof. destruct m as [a|e]; simpl; [eauto | discriminate]. Qed.

(** A loop whose body keeps [I] while it goes on and establishes [F] when it
    breaks, on elements satisfying [P], terminates without raising in a
    state satisfying [F]. *)
Lemma for_each_inv {A S : Type} (body : S -> A -> result (ctl S))
      (P : A -> Prop) (I F : S -> Prop) :
  (forall st x, P x -> I st ->
     exists r, body st x = Ok r /\
               match r with Next st' => I st' | Break st' => F st' end) ->
  (forall st, I st -> F st) ->
  forall l st, Forall P l -> I st ->
    exists st', for_each body st l = Ok st' /\ F st'.
Proof.
  intros Hbody Hfin l. induction l as [|x l IH]; intros st Hl Hst.
  - exists st. split; [reflexivity | auto].
  - inversion Hl as [|? ? Hx Hl']; subst.
    destruct (Hbody st x Hx Hst) as [r [Hr Hpost]].
    simpl. rewrite Hr. simpl. destruct r as [st'|st'].
    + apply IH; assumption.
    + exists st'. split; [reflexivity | assumption].
Qed.

(** ** Prefixes and substrings *)

Lemma startswith_iff p s :
  startswith p s = true <-> exists b, s = p ++ b.
Proof.
  revert s. induction p as [|a p IH]; intros s; simpl.
  - split; [intros _; exists s; reflexivity | reflexivity].
  - destruct s as [|c s].
    + split; [discriminate | intros [b Hb]; discriminate].
    + rewrite andb_true_iff, Ascii.eqb_eq, IH. split.
      * intros [-> [b ->]]. exists b. reflexivity.
      * intros [b Hb]. injection Hb as -> ->. eauto.
Qed.

Lemma contains_iff sub s :
  contains sub s = true <-> exists a b, s = a ++ sub ++ b.
Proof.
  induction s as [|c s IH].
  - simpl. rewrite orb_false_r, startswith_iff. split.
    + intros [b Hb]. exists [], b. exact Hb.
    + intros [a [b Hab]]. destruct a; [eauto | discriminate].
  - cbn [contains]. rewrite orb_true_iff, startswith_iff, IH. split.
    + intros [[b Hb] | [a [b Hab]]].
      * exists [], b. exact Hb.
      * exists (c :: a), b. rewrite Hab. reflexivity.
    + intros [a [b Hab]]. destruct a as [|a0 a].
      * left. exists b. exact Hab.
      * right. injection Hab as _ ->. eauto.
Qed.

Lemma contains_In sub s c :
  contains sub s = true -> In c sub -> In c s.
Proof.
  rewrite contains_iff. intros [a [b ->]] Hc.
  apply in_or_app. right. apply in_or_app. left. exact Hc.
Qed.

(** ** Stripping *)

Lemma lstrip_suffix s : exists a, s = a ++ lstrip s /\ forallb isspace a = true.
Proof.
  induction s as [|c s [a [Ha Hsp]]]; simpl.
  - exists []. split; reflexivity.
  - destruct (isspace c) eqn:Hc.
    + exists (c :: a). simpl. rewrite Hc, Hsp. split; [f_equal; exact Ha | reflexivity].
    + exists []. split; reflexivity.
Qed.

Lemma rstrip_prefix s : exists b, s = rstrip s ++ b /\ forallb isspace b = true.
Proof.
  induction s as [|c s [b [Hb Hsp]]]; simpl.
  - exists []. split; reflexivity.
  - destruct (rstrip s) as [|r0 r] eqn:Hr.
    + destruct (isspace c) eqn:Hc.
      * exists (c :: b). simpl in *. rewrite Hc, Hsp. subst s. split; reflexivity.
      * exists b. simpl in *. subst s. split; [reflexivity | assumption].
    + exists b. split; [simpl; f_equal; exact Hb | assumption].
Qed.

Lemma lstrip_incl s c : In c (lstrip s) -> In c s.
Proof.
  destruct (lstrip_suffix s) as [a [Ha _]]. intros Hc.
  rewrite Ha. apply in_or_app. right. exact Hc.
Qed.

Lemma rstrip_incl s c : In c (rstrip s) -> In c s.
Proof.
  destruct (rstrip_prefix s) as [b [Hb _]]. intros Hc.
  rewrite Hb. apply in_or_app. left. exact Hc.
Qed.

Lemma strip_incl s c : In c (strip s) -> In c s.
Proof. intros Hc. apply lstrip_incl, rstrip_incl, Hc. Qed.

Lemma lstrip_head s c r : lstrip s = c :: r -> isspace c = false.
Proof.
  induction s as [|d s IH]; simpl; [discriminate|].
  destruct (isspace d) eqn:Hd; [exact IH|].
  intros H. injection H as -> _. exact Hd.
Qed.

Lemma lstrip_nonspace c s : isspace c = false -> lstrip (c :: s) = c :: s.
Proof. intros H. simpl. rewrite H. reflexivity. Qed.

Lemma lstrip_idem s : lstrip (lstrip s) = lstrip s.
Proof.
  destruct (lstrip s) as [|c r] eqn:H; [reflexivity|].
  apply lstrip_nonspace. eapply lstrip_head. exact H.
Qed.

Lemma rstrip_cons_nonempty c s :
  rstrip s <> [] -> rstrip (c :: s) = c :: rstrip s.
Proof. simpl. destruct (rstrip s); [congruence | reflexivity]. Qed.

Lemma rstrip_app p s : rstrip s <> [] -> rstrip (p ++ s) = p ++ rstrip s.
Proof.
  intros Hs. induction p as [|c p IH]; [reflexivity|].
  rewrite <- app_comm_cons, rstrip_cons_nonempty; rewrite IH.
  - reflexivity.
  - destruct p; simpl; [exact Hs | discriminate].
Qed.

Lemma rstrip_nonspace_cons z b :
  isspace z = false -> rstrip (z :: b) = z :: rstrip b.
Proof. intros Hz. simpl. rewrite Hz. destruct (rstrip b); reflexivity. Qed.

Lemma rstrip_app_nonspace p z b :
  isspace z = false -> rstrip (p ++ z :: b) = p ++ z :: rstrip b.
Proof.
  intros Hz. rewrite rstrip_app; rewrite rstrip_nonspace_cons by exact Hz;
    [reflexivity | discriminate].
Qed.

Lemma rstrip_spaces b : forallb isspace b = true -> rstrip b = [].
Proof.
  induction b as [|c b IH]; simpl; [reflexivity|].
  rewrite andb_true_iff. intros [Hc Hb]. rewrite (IH Hb), Hc. reflexivity.
Qed.

Lemma lstrip_spaces a : forallb isspace a = true -> lstrip a = [].
Proof.
  induction a as [|c a IH]; simpl; [reflexivity|].
  rewrite andb_true_iff. intros [Hc Ha]. rewrite Hc. exact (IH Ha).
Qed.

Lemma lstrip_app_spaces a s : forallb isspace a = true -> lstrip (a ++ s) = lstrip s.
Proof.
  induction a as [|c a IH]; simpl; [reflexivity|].
  rewrite andb_true_iff. intros [Hc Ha]. rewrite Hc. exact (IH Ha).
Qed.

Lemma rstrip_idem s : rstrip (rstrip s) = rstrip s.
Proof.
  induction s as [|c s IH]; simpl; [reflexivity|].
  destruct (rstrip s) as [|r0 r] eqn:Hr.
  - destruct (isspace c) eqn:Hc; simpl; [reflexivity | rewrite Hc; reflexivity].
  - rewrite rstrip_cons_nonempty; rewrite IH; [reflexivity | discriminate].
Qed.

Lemma lstrip_rstrip s : lstrip (rstrip s) = rstrip (lstrip s).
Proof.
  induction s as [|c s IH]; [reflexivity|].
  destruct (isspace c) eqn:Hc.
  - cbn [lstrip]. rewrite Hc, <- IH. cbn [rstrip].
    destruct (rstrip s) as [|r0 r].
    + rewrite Hc. reflexivity.
    + change (lstrip (c :: r0 :: r)) with (if isspace c then lstrip (r0 :: r) else c :: r0 :: r).
      rewrite Hc. reflexivity.
  - rewrite (lstrip_nonspace c s Hc), (rstrip_nonspace_cons c s Hc).
    apply lstrip_nonspace. exact Hc.
Qed.

Lemma strip_idem s : strip (strip s) = strip s.
Proof.
  unfold strip. rewrite lstrip_rstrip, lstrip_idem, rstrip_idem. reflexivity.
Qed.

Lemma strip_empty_iff s : strip s = [] <-> forallb isspace s = true.
Proof.
  unfold strip. split.
  - intros H. destruct (lstrip_suffix s) as [a [Ha Hsp]].
    destruct (rstrip_prefix (lstrip s)) as [b [Hb Hbsp]].
    rewrite H in Hb. simpl in Hb. rewrite Ha, Hb, forallb_app, Hsp, Hbsp. reflexivity.
  - intros H. rewrite (lstrip_spaces s H). reflexivity.
Qed.

(** A substring that starts and ends with a non-whitespace character is
    found in [s] exactly when it is found in [s.strip()]. *)
Lemma contains_strip sub0 x z s :
  isspace x = false -> isspace z = false ->
  contains (x :: sub0 ++ [z]) (strip s) = contains (x :: sub0 ++ [z]) s.
Proof.
  intros Hx Hz. apply eq_true_iff_eq. rewrite !contains_iff. split.
  - intros [a [b Hab]].
    destruct (lstrip_suffix s) as [a' [Ha' _]].
    destruct (rstrip_prefix (lstrip s)) as [b' [Hb' _]].
    exists (a' ++ a), (b ++ b'). rewrite Ha', Hb'. fold (strip s). rewrite Hab.
    rewrite <- !app_assoc. reflexivity.
  - intros [a [b ->]].
    destruct (lstrip_suffix a) as [a1 [Ha1 Hsp]].
    assert (Hl : lstrip (a ++ (x :: sub0 ++ [z]) ++ b)
                 = lstrip a ++ (x :: sub0 ++ [z]) ++ b).
    { rewrite Ha1 at 1. rewrite <- app_assoc, lstrip_app_spaces by exact Hsp.
      destruct (lstrip a) as [|c r] eqn:Hla.
      - simpl. rewrite Hx. reflexivity.
      - simpl. rewrite (lstrip_head _ _ _ Hla). reflexivity. }
    unfold strip. rewrite Hl.
    exists (lstrip a), (rstrip b).
    replace (lstrip a ++ (x :: sub0 ++ [z]) ++ b)
      with ((lstrip a ++ x :: sub0) ++ z :: b)
      by (rewrite <- !app_assoc; simpl; rewrite <- app_assoc; reflexivity).
    rewrite rstrip_app_nonspace by exact Hz.
    rewrite <- !app_assoc. simpl. rewrite <- app_assoc. reflexivity.
Qed.

(** ** The token cleaner *)

Lemma delete_char_filter x s :
  delete_char x s = filter (fun c => negb (Ascii.eqb c x)) s.
Proof.
  induction s as [|c s IH]; simpl; [reflexivity|].
  destruct (Ascii.eqb c x); simpl; rewrite IH; reflexivity.
Qed.

Lemma filter_filter {A : Type} (f g : A -> bool) l :
  filter f (filter g l) = filter (fun x => g x && f x) l.
Proof.
  induction l as [|x l IH]; simpl; [reflexivity|].
  destruct (g x); simpl; [destruct (f x)|]; rewrite IH; reflexivity.
Qed.

Lemma delete_chars_remove_artifacts token :
  delete_chars ["|"; "["; "]"; "("; ")"; "{"; "}"; "_"]%char token
  = remove_artifacts token.
Proof.
  unfold delete_chars, remove_artifacts. cbn [fold_right].
  rewrite !delete_char_filter, !filter_filter.
  apply filter_ext. intros c. rewrite artifact_spec. cbn [existsb].
  repeat (destruct (Ascii.eqb c _); try reflexivity).
Qed.

(** The source function never raises and computes the cleaner as the
    specification words it. *)
Lemma clean_ocr_artifacts_ok token :
  clean_ocr_artifacts token = Ok (spec_clean token).
Proof.
  unfold clean_ocr_artifacts, spec_clean.
  rewrite delete_chars_remove_artifacts.
  destruct (remove_artifacts token) as [|a [|c r]];
    cbn -[strip isupper Ascii.eqb Nat.ltb].
  - reflexivity.
  - change (1 <? 1) with false. rewrite andb_false_r.
    cbn -[strip isupper Ascii.eqb]. rewrite andb_false_r. reflexivity.
  - change (1 <? S (S (length r))) with true. rewrite !andb_true_r.
    destruct (Ascii.eqb "l" a) eqn:Hl; rewrite (Ascii.eqb_sym a "l"), Hl;
      cbn -[strip isupper Ascii.eqb Nat.ltb].
    + destruct (isupper c) eqn:Hu; cbn -[strip isupper Ascii.eqb Nat.ltb].
      * assert (Hs : Ascii.eqb "/" c = false).
        { destruct (Ascii.eqb "/" c) eqn:Hs; [| reflexivity].
          apply Ascii.eqb_eq in Hs. subst c. discriminate. }
        rewrite ?(Ascii.eqb_sym c "/"), Hs. cbn -[strip].
        destruct r; cbn -[strip]; rewrite ?(Ascii.eqb_sym c "/"), ?Hs; reflexivity.
      * rewrite (Ascii.eqb_sym a "/"), !andb_true_r.
        destruct (Ascii.eqb "/" a); reflexivity.
    + rewrite (Ascii.eqb_sym a "/"), !andb_true_r.
      destruct (Ascii.eqb "/" a); reflexivity.
Qed.

Lemma spec_drop_l_incl s c : In c (spec_drop_l s) -> In c s.
Proof.
  destruct s as [|a [|d r]]; simpl; auto.
  destruct (Ascii.eqb a "l" && isupper d); simpl; tauto.
Qed.

Lemma spec_drop_slash_incl s c : In c (spec_drop_slash s) -> In c s.
Proof.
  destruct s as [|a [|d r]]; simpl; auto.
  destruct (Ascii.eqb a "/"); simpl; tauto.
Qed.

(** Every character of a cleaned token is a character of the token and is
    not one of the deleted characters. *)
Lemma spec_clean_chars token c :
  In c (spec_clean token) -> In c token /\ artifact c = false.
Proof.
  unfold spec_clean. rewrite delete_chars_remove_artifacts. intros H.
  apply strip_incl, spec_drop_slash_incl, spec_drop_l_incl in H.
  unfold remove_artifacts in H. apply filter_In in H. destruct H as [H1 H2].
  split; [exact H1 | apply negb_true_iff; exact H2].
Qed.

Lemma remove_artifacts_id s :
  Forall (fun c => artifact c = false) s -> remove_artifacts s = s.
Proof.
  induction 1 as [|c s Hc _ IH]; simpl; [reflexivity|].
  rewrite Hc. simpl. f_equal. exact IH.
Qed.

(** Alphabetic characters survive cleaning: the only letter the cleaner can
    delete is a leading "l", and then an uppercase letter follows it. *)
Lemma spec_clean_keeps_alpha token :
  existsb isalpha token = true -> existsb isalpha (spec_clean token) = true.
Proof.
  intros H. apply existsb_exists in H. destruct H as [c [Hc Ha]].
  assert (Hr : In c (remove_artifacts token)).
  { apply filter_In. split; [exact Hc|]. rewrite (isalpha_not_artifact c Ha). reflexivity. }
  unfold spec_clean. rewrite delete_chars_remove_artifacts.
  set (r := remove_artifacts token) in *. clearbody r. clear Hc.
  assert (Hd : exists c', In c' (spec_drop_slash (spec_drop_l r)) /\ isalpha c' = true).
  { destruct r as [|a [|d r]]; [contradiction | exists c; split; assumption |].
    cbn [spec_drop_l]. destruct (Ascii.eqb a "l" && isupper d) eqn:E.
    - apply andb_true_iff in E. destruct E as [_ Hu].
      exists d. split; [| apply isupper_isalpha; exact Hu].
      destruct r as [|e r]; [left; reflexivity|]. cbn [spec_drop_slash].
      destruct (Ascii.eqb d "/") eqn:Hs; [| left; reflexivity].
      apply Ascii.eqb_eq in Hs. subst d. discriminate.
    - cbn [spec_drop_slash]. destruct (Ascii.eqb a "/") eqn:Hs.
      + apply Ascii.eqb_eq in Hs. subst a. destruct Hr as [Hr|Hr].
        * subst c. discriminate.
        * exists c. split; assumption.
      + exists c. split; assumption. }
  destruct Hd as [c' [Hc' Ha']].
  set (u := spec_drop_slash (spec_drop_l r)) in *. clearbody u.
  apply existsb_exists. exists c'. split; [| exact Ha'].
  destruct (lstrip_suffix u) as [a [Hu Hsp]].
  destruct (rstrip_prefix (lstrip u)) as [b [Hb Hbsp]].
  rewrite Hu, Hb in Hc'. fold (strip u) in Hc'.
  apply in_app_or in Hc'. destruct Hc' as [Hc'|Hc'].
  - rewrite forallb_forall in Hsp. specialize (Hsp _ Hc').
    rewrite (isalpha_not_space _ Ha') in Hsp. discriminate.
  - apply in_app_or in Hc'. destruct Hc' as [Hc'|Hc']; [exact Hc'|].
    rewrite forallb_forall in Hbsp. specialize (Hbsp _ Hc').
    rewrite (isalpha_not_space _ Ha') in Hbsp. discriminate.
Qed.

(** ** Splitting and joining *)

Lemma split_ws_spaceless s : Forall spaceless (split_ws s).
Proof.
  induction s as [|c s IH]; [constructor|].
  cbn [split_ws]. destruct (isspace c) eqn:Hc; [exact IH|].
  assert (H1 : spaceless [c]).
  { split; [discriminate | constructor; [exact Hc | constructor]]. }
  destruct s as [|d s]; [constructor; [exact H1 | constructor]|].
  destruct (isspace d) eqn:Hd; [constructor; assumption|].
  destruct (split_ws (d :: s)) as [|t ts]; [constructor; [exact H1 | constructor]|].
  inversion IH as [|? ? [_ Ht] Hts]; subst.
  constructor; [| exact Hts].
  split; [discriminate | constructor; assumption].
Qed.

Lemma split_ws_token_alone t : spaceless t -> split_ws t = [t].
Proof.
  intros [Hne Hsp]. induction Hsp as [|c t Hc Hsp IH]; [congruence|].
  cbn [split_ws]. rewrite Hc. destruct t as [|d t]; [reflexivity|].
  inversion Hsp as [|? ? Hd _]; subst. rewrite Hd.
  rewrite IH by discriminate. reflexivity.
Qed.

Lemma split_ws_token_app t s :
  spaceless t -> split_ws (t ++ " "%char :: s) = t :: split_ws s.
Proof.
  intros [Hne Hsp]. induction Hsp as [|c t Hc Hsp IH]; [congruence|].
  rewrite <- app_comm_cons. cbn [split_ws]. rewrite Hc.
  destruct t as [|d t].
  - reflexivity.
  - inversion Hsp as [|? ? Hd _]; subst.
    rewrite <- app_comm_cons, Hd, app_comm_cons.
    rewrite IH by discriminate. reflexivity.
Qed.

Lemma join_cons sep t u l :
  join sep (t :: u :: l) = t ++ sep ++ join sep (u :: l).
Proof. reflexivity. Qed.

Lemma join_head l :
  Forall spaceless l -> l <> [] ->
  exists c r, join " " l = c :: r /\ isspace c = false.
Proof.
  intros Hl Hne. destruct l as [|t l]; [congruence|].
  inversion Hl as [|? ? [Ht Hsp] _]; subst.
  destruct t as [|c t]; [congruence|].
  inversion Hsp as [|? ? Hc _]; subst.
  destruct l as [|u l].
  - exists c, t. split; [reflexivity | exact Hc].
  - rewrite join_cons. exists c, (t ++ lit " " ++ join " " (u :: l)).
    split; [reflexivity | exact Hc].
Qed.

Lemma split_ws_join l : Forall spaceless l -> split_ws (join " " l) = l.
Proof.
  induction 1 as [|t l Ht Hl IH]; [reflexivity|].
  destruct l as [|u l]; [apply split_ws_token_alone; exact Ht|].
  rewrite join_cons. change (lit " " ++ join " " (u :: l))
    with (" "%char :: join " " (u :: l)).
  rewrite split_ws_token_app by exact Ht. rewrite IH. reflexivity.
Qed.

Lemma collapse_spaces_token_app t s :
  Forall (fun c => isspace c = false) t ->
  collapse_spaces (t ++ s) = t ++ collapse_spaces s.
Proof.
  induction 1 as [|c t Hc _ IH]; [reflexivity|].
  rewrite <- !app_comm_cons. cbn [collapse_spaces]. rewrite Hc, IH. reflexivity.
Qed.

Lemma collapse_spaces_space_cons d r :
  isspace d = false ->
  collapse_spaces (" "%char :: d :: r) = " "%char :: collapse_spaces (d :: r).
Proof.
  intros Hd.
  change (collapse_spaces (" "%char :: d :: r))
    with (if isspace d then collapse_spaces (d :: r)
          else " "%char :: collapse_spaces (d :: r)).
  rewrite Hd. reflexivity.
Qed.

Lemma collapse_spaces_join l :
  Forall spaceless l -> collapse_spaces (join " " l) = join " " l.
Proof.
  induction 1 as [|t l Ht Hl IH]; [reflexivity|].
  destruct Ht as [_ Ht].
  destruct l as [|u l].
  - cbn [join]. rewrite <- (app_nil_r t) at 1.
    rewrite collapse_spaces_token_app by exact Ht. cbn. apply app_nil_r.
  - rewrite join_cons, collapse_spaces_token_app by exact Ht. f_equal.
    destruct (join_head (u :: l) Hl) as [c [r [Hj Hc]]]; [discriminate|].
    rewrite Hj in *. change (lit " " ++ c :: r) with (" "%char :: c :: r).
    rewrite (collapse_spaces_space_cons c r Hc), IH. reflexivity.
Qed.

Lemma rstrip_spaceless t : spaceless t -> rstrip t = t.
Proof.
  intros [Hne Hsp]. destruct (exists_last Hne) as [p [z Hz]]. subst t.
  rewrite Forall_app in Hsp. destruct Hsp as [_ Hz]. inversion Hz; subst.
  rewrite rstrip_app_nonspace by assumption. reflexivity.
Qed.

Lemma rstrip_join l : Forall spaceless l -> rstrip (join " " l) = join " " l.
Proof.
  induction 1 as [|t l Ht Hl IH]; [reflexivity|].
  destruct l as [|u l]; [apply rstrip_spaceless; exact Ht|].
  rewrite join_cons, !app_assoc. rewrite rstrip_app; rewrite IH; [reflexivity|].
  destruct (join_head (u :: l) Hl) as [c [r [Hj _]]]; [discriminate|].
  rewrite Hj. discriminate.
Qed.

Lemma strip_join l : Forall spaceless l -> strip (join " " l) = join " " l.
Proof.
  intros Hl. unfold strip. destruct l as [|t l]; [reflexivity|].
  destruct (join_head (t :: l) Hl) as [c [r [Hj Hc]]]; [discriminate|].
  rewrite Hj, (lstrip_nonspace c r Hc), <- Hj. apply rstrip_join. exact Hl.
Qed.

Lemma join_chars l c :
  In c (join " " l) -> c = " "%char \/ exists t, In t l /\ In c t.
Proof.
  induction l as [|t l IH]; [contradiction|].
  destruct l as [|u l].
  - intros H. right. exists t. split; [left; reflexivity | exact H].
  - rewrite join_cons. intros H. apply in_app_or in H. destruct H as [H|H].
    + right. exists t. split; [left; reflexivity | exact H].
    + destruct H as [H|H]; [left; symmetry; exact H|].
      destruct (IH H) as [Hc | [t' [Ht' Hc]]]; [left; exact Hc|].
      right. exists t'. split; [right; exact Ht' | exact Hc].
Qed.

(** ** The token loop *)

(** One turn of the loop, with the cleaner's result made explicit: the body
    never raises. *)
Lemma token_body_ok name_tokens token :
  token_body name_tokens token =
  Ok (if hits_stop_keyword token then Break name_tokens
      else
        let cleaned := spec_clean token in
        if is_empty cleaned || (length cleaned <? 1) then Next name_tokens
        else if str_isdigit cleaned && (0 <? length name_tokens) then
          if length cleaned <=? MAX_SMALL_NUMBER_LENGTH
          then Break (name_tokens ++ [cleaned])
          else Break name_tokens
        else
          if MAX_NAME_TOKENS <=? length (name_tokens ++ [cleaned])
          then Break (name_tokens ++ [cleaned])
          else Next (name_tokens ++ [cleaned])).
Proof.
  unfold token_body. rewrite clean_ocr_artifacts_ok. cbn [bind].
  repeat match goal with
         | |- context [if ?b then _ else _] => destruct b; try reflexivity
         end.
Qed.

Lemma spec_clean_clean_token token :
  spaceless token -> spec_clean token <> [] -> clean_token (spec_clean token).
Proof.
  intros [_ Hsp] Hne. rewrite Forall_forall in Hsp.
  split; [split; [exact Hne|] |]; apply Forall_forall; intros c Hc;
    apply spec_clean_chars in Hc; destruct Hc as [Hin Ha]; auto.
Qed.

Lemma digits_lead_only_close acc :
  digits_lead_only acc -> digits_lead_or_close acc.
Proof.
  intros H i tok Hi Hd Hpos. rewrite (H i tok Hi Hd) in Hpos. lia.
Qed.

Lemma nth_error_snoc {A : Type} (l : list A) (x y : A) i :
  nth_error (l ++ [x]) i = Some y ->
  nth_error l i = Some y \/ (i = length l /\ y = x).
Proof.
  intros H. destruct (Nat.lt_ge_cases i (length l)) as [Hlt|Hge].
  - left. rewrite nth_error_app1 in H by exact Hlt. exact H.
  - right. rewrite nth_error_app2 in H by exact Hge.
    destruct (i - length l) as [|k] eqn:Hk; simpl in H.
    + injection H as <-. split; [lia | reflexivity].
    + destruct k; discriminate.
Qed.

Lemma token_body_step acc token :
  spaceless token -> loop_running acc ->
  exists r, token_body acc token = Ok r /\
            match r with
            | Next acc' => loop_running acc'
            | Break acc' => loop_left acc'
            end.
Proof.
  intros Htok [Hcl Hdig]. rewrite token_body_ok. eexists. split; [reflexivity|].
  assert (Hleft : loop_left acc).
  { split; [exact Hcl | apply digits_lead_only_close; exact Hdig]. }
  destruct (hits_stop_keyword token); [exact Hleft|].
  cbv zeta. set (cleaned := spec_clean token).
  destruct (is_empty cleaned || (length cleaned <? 1)) eqn:He.
  { split; assumption. }
  assert (Hne : cleaned <> []).
  { intros E. rewrite E in He. discriminate. }
  assert (Hct : clean_token cleaned).
  { apply spec_clean_clean_token; assumption. }
  assert (Hcl' : Forall clean_token (acc ++ [cleaned])).
  { apply Forall_app. split; [exact Hcl | constructor; [exact Hct | constructor]]. }
  destruct (str_isdigit cleaned && (0 <? length acc)) eqn:Hd.
  - destruct (length cleaned <=? MAX_SMALL_NUMBER_LENGTH) eqn:Hlen; [| exact Hleft].
    split; [exact Hcl'|].
    intros i tok Hi Hdt Hpos. apply nth_error_snoc in Hi.
    destruct Hi as [Hi | [-> ->]].
    + rewrite (Hdig i tok Hi Hdt) in Hpos. lia.
    + rewrite length_app. simpl. apply Nat.leb_le in Hlen.
      unfold MAX_SMALL_NUMBER_LENGTH in Hlen. lia.
  - assert (Hrun : loop_running (acc ++ [cleaned])).
    { split; [exact Hcl'|].
      intros i tok Hi Hdt. apply nth_error_snoc in Hi.
      destruct Hi as [Hi | [-> ->]]; [exact (Hdig i tok Hi Hdt)|].
      rewrite Hdt in Hd. simpl in Hd. apply Nat.ltb_ge in Hd. lia. }
    destruct (MAX_NAME_TOKENS <=? length (acc ++ [cleaned])); [| exact Hrun].
    destruct Hrun as [H1 H2]. split; [exact H1 | apply digits_lead_only_close; exact H2].
Qed.

Lemma collect_name_tokens_ok tokens :
  Forall spaceless tokens ->
  exists name_tokens,
    collect_name_tokens tokens = Ok name_tokens /\ loop_left name_tokens.
Proof.
  intros Htok. unfold collect_name_tokens.
  apply (for_each_inv token_body spaceless loop_running loop_left).
  - intros st x Hx Hst. apply token_body_step; assumption.
  - intros st [H1 H2]. split; [exact H1 | apply digits_lead_only_close; exact H2].
  - exact Htok.
  - split; [constructor|]. intros i tok Hi. destruct i; discriminate.
Qed.

Lemma clean_tokens_spaceless l : Forall clean_token l -> Forall spaceless l.
Proof. apply Forall_impl. intros t [H _]. exact H. Qed.

(** The section extractor never raises; its answer is the single-space join
    of the tokens collected by the loop, and splitting it gives them back. *)
Lemma extract_point_name_from_section_ok text :
  exists name_tokens,
    extract_point_name_from_section text = Ok (join " " name_tokens) /\
    loop_left name_tokens /\
    split_ws (join " " name_tokens) = name_tokens.
Proof.
  unfold extract_point_name_from_section.
  destruct (split_ws text) as [|t ts] eqn:Hs.
  - exists []. split; [reflexivity|]. split; [| reflexivity].
    split; [constructor|]. intros i tok Hi. destruct i; discriminate.
  - cbn [is_empty].
    destruct (collect_name_tokens_ok (t :: ts)) as [nt [Hnt Hleft]].
    { rewrite <- Hs. apply split_ws_spaceless. }
    rewrite Hnt. cbn [bind]. exists nt.
    pose proof (clean_tokens_spaceless nt (proj1 Hleft)) as Hsp.
    rewrite strip_join, collapse_spaces_join by exact Hsp.
    split; [reflexivity|]. split; [exact Hleft | apply split_ws_join; exact Hsp].
Qed.

(** ** The row pattern and the line loop *)

Lemma backtrack_length rest lo s n :
  (forall s' m, rest s' = Some m -> length m = n) ->
  forall k m, backtrack rest lo s k = Some m -> length m = S n.
Proof.
  intros Hrest k. induction k as [|k IH]; intros m; cbn [backtrack];
    destruct (_ <? lo); try discriminate;
    destruct (rest (skipn _ s)) as [gs|] eqn:Hr; try discriminate.
  - intros H. injection H as <-. simpl. f_equal. eapply Hrest, Hr.
  - intros H. injection H as <-. simpl. f_equal. eapply Hrest, Hr.
  - apply IH.
Qed.

(** A match has one text per piece of the pattern. *)
Lemma re_match_length ps :
  forall s m, re_match ps s = Some m -> length m = length ps.
Proof.
  induction ps as [|p ps IH]; intros s m; cbn [re_match].
  - intros H. injection H as <-. reflexivity.
  - intros H. simpl. eapply backtrack_length; [| exact H]. exact IH.
Qed.

Lemma span_len_firstn cls s :
  forall k, k <= span_len cls s ->
    forallb cls (firstn k s) = true /\ length (firstn k s) = k.
Proof.
  induction s as [|c s IH]; intros k Hk; simpl in Hk.
  - assert (k = 0) by lia. subst k. split; reflexivity.
  - destruct k as [|k]; [split; reflexivity|].
    destruct (cls c) eqn:Hc; [| lia].
    destruct (IH k) as [H1 H2]; [lia|].
    simpl. rewrite Hc, H1, H2. split; reflexivity.
Qed.

Lemma backtrack_sound rest lo cls s :
  forall k m, k <= span_len cls s -> backtrack rest lo s k = Some m ->
    exists j gs, m = firstn j s :: gs /\ lo <= j <= k /\
                 rest (skipn j s) = Some gs.
Proof.
  induction k as [|k IH]; intros m Hk; cbn [backtrack];
    destruct (_ <? lo) eqn:Hlo; try discriminate;
    apply Nat.ltb_ge in Hlo;
    destruct (rest (skipn _ s)) as [gs|] eqn:Hr; try discriminate.
  - intros H. injection H as <-. exists 0, gs. repeat split; auto.
  - intros H. injection H as <-. exists (S k), gs. repeat split; auto.
  - intros H. destruct (IH m) as [j [gs [H1 [H2 H3]]]]; [lia | exact H |].
    exists j, gs. repeat split; auto; lia.
Qed.

(** What [re_match] answers is a cut of a prefix of the text along the
    pattern. *)
Lemma re_match_sound ps :
  forall s m, re_match ps s = Some m -> cut_by ps s m.
Proof.
  induction ps as [|p ps IH]; intros s m; cbn [re_match].
  - intros H. injection H as <-. exact I.
  - intros H.
    destruct (backtrack_sound _ _ (piece_class p) s _ m (le_n _) H)
      as [j [gs [-> [[Hlo Hhi] Hrest]]]].
    destruct (span_len_firstn (piece_class p) s j Hhi) as [Hcls Hlen].
    cbn [cut_by]. rewrite Hlen. split; [exact Hcls|]. split; [exact Hlo|].
    exists (skipn j s). split; [symmetry; apply firstn_skipn | apply IH, Hrest].
Qed.

Lemma split_on_nonempty sep s : split_on sep s <> [].
Proof.
  destruct s as [|c s]; simpl; [discriminate|].
  destruct (Ascii.eqb c sep); [discriminate|].
  destruct (split_on sep s); discriminate.
Qed.

(** One turn of the line loop never raises and never breaks; it leaves the
    names as they are or appends one name, which is the join of the tokens
    the token loop collected, is not empty and passes the validator. *)
Lemma line_body_step st line :
  exists st',
    line_body st line = Ok (Next st') /\
    (snd st' = snd st \/
     exists name_tokens,
       snd st' = snd st ++ [join " " name_tokens] /\
       loop_left name_tokens /\
       split_ws (join " " name_tokens) = name_tokens /\
       join " " name_tokens <> [] /\
       is_valid_point_name (join " " name_tokens) = true).
Proof.
  destruct st as [in_table point_names]. unfold line_body.
  destruct (is_empty (strip line)); [eexists; split; [reflexivity | left; reflexivity]|].
  destruct (contains _ (upper (strip line)));
    [eexists; split; [reflexivity | left; reflexivity]|].
  destruct (existsb _ skip_markers);
    [eexists; split; [reflexivity | left; reflexivity]|].
  destruct (re_match row_pattern (strip line)) as [m|] eqn:Hm;
    [| eexists; split; [reflexivity | left; reflexivity]].
  apply re_match_length in Hm.
  destruct m as [|g1 [|g2 [|g3 [|g4 [|g5 m]]]]]; try discriminate.
  cbn [group2 index nth_error bind].
  destruct (split_on "|" (strip g4)) as [|s0 ss] eqn:Hs;
    [exfalso; exact (split_on_nonempty _ _ Hs)|].
  cbn [index nth_error bind].
  destruct (extract_point_name_from_section_ok (strip s0))
    as [nt [Hnt [Hleft Hsplit]]].
  rewrite Hnt. cbn [bind].
  destruct (negb (is_empty (join " " nt)) && is_valid_point_name (join " " nt))
    eqn:Hv; [| eexists; split; [reflexivity | left; reflexivity]].
  apply andb_true_iff in Hv. destruct Hv as [Hne Hv].
  eexists. split; [reflexivity|]. right. exists nt. cbn [snd].
  split; [reflexivity|]. split; [exact Hleft|]. split; [exact Hsplit|].
  split; [| exact Hv]. intros E. rewrite E in Hne. discriminate.
Qed.

Lemma scan_ok lines st :
  Forall extracted (snd st) ->
  exists st', for_each line_body st lines = Ok st' /\ Forall extracted (snd st').
Proof.
  intros Hst.
  apply (for_each_inv line_body (fun _ => True)
           (fun st => Forall extracted (snd st))
           (fun st => Forall extracted (snd st))); auto.
  - clear. intros st x _ Hst.
    destruct (line_body_step st x) as [st' [Hb Hcase]].
    exists (Next st'). split; [exact Hb|].
    destruct Hcase as [-> | [nt [-> [Hleft [_ [Hne Hv]]]]]]; [exact Hst|].
    apply Forall_app. split; [exact Hst|].
    constructor; [| constructor]. exists nt.
    split; [reflexivity|]. split; [exact Hleft|]. split; assumption.
  - apply Forall_forall. intros. exact I.
Qed.

Lemma extract_point_names_from_text_ok text :
  exists names,
    extract_point_names_from_text text = Ok names /\ Forall extracted names.
Proof.
  unfold extract_point_names_from_text.
  destruct (scan_ok (split_on "010" text) (false, [])) as [st' [Hs Hn]];
    [constructor|].
  rewrite Hs. cbn [bind]. exists (snd st'). split; [reflexivity | exact Hn].
Qed.

(** ** The validator *)

Lemma is_empty_strip s : is_empty (strip s) = forallb isspace s.
Proof.
  apply eq_true_iff_eq. rewrite <- strip_empty_iff.
  destruct (strip s); simpl; split; congruence.
Qed.

Lemma contains_SPARE_strip s : contains "SPARE" (strip s) = contains "SPARE" s.
Proof. exact (contains_strip (lit "PAR") "S" "E" s eq_refl eq_refl). Qed.

(** The validator as one boolean formula over the four rejections. *)
Lemma is_valid_point_name_formula name :
  is_valid_point_name name =
  negb (forallb isspace name
        || contains "SPARE" (upper name)
        || (length (strip name) <=? 1)
        || negb (existsb isalpha name)).
Proof.
  unfold is_valid_point_name.
  rewrite is_empty_strip, contains_SPARE_strip.
  destruct name as [|c name]; [reflexivity|]. cbn [is_empty orb].
  destruct (forallb isspace (c :: name)); [reflexivity|].
  destruct (contains "SPARE" (upper (c :: name))); [reflexivity|].
  destruct (length (strip (c :: name)) <=? 1); [reflexivity|].
  destruct (existsb isalpha (c :: name)); reflexivity.
Qed.

Lemma alpha_not_all_digits s : existsb isalpha s = true -> str_isdigit s = false.
Proof.
  intros H. apply existsb_exists in H. destruct H as [c [Hc Ha]].
  unfold str_isdigit. apply andb_false_iff. right.
  destruct (forallb isdigit s) eqn:Hd; [| reflexivity].
  rewrite forallb_forall in Hd. specialize (Hd c Hc).
  rewrite (isalpha_not_digit c Ha) in Hd. discriminate.
Qed.

Lemma is_valid_point_name_true name :
  is_valid_point_name name = true ->
  name <> [] /\ forallb isspace name = false /\ 1 < length (strip name) /\
  existsb isalpha name = true /\ str_isdigit name = false /\
  contains "SPARE" (upper name) = false.
Proof.
  rewrite is_valid_point_name_formula, negb_true_iff, !orb_false_iff.
  intros [[[Hsp Hspare] Hlen] Halpha].
  apply negb_false_iff in Halpha. apply Nat.leb_gt in Hlen.
  repeat split; try assumption.
  - intros ->. discriminate.
  - apply alpha_not_all_digits. exact Halpha.
Qed.

(** ** Stop keywords *)

Lemma upper_In c s : In c (upper s) -> exists c0, In c0 s /\ upper_char c0 = c.
Proof.
  unfold upper. rewrite in_map_iff. intros [c0 [H1 H2]]. eauto.
Qed.

(** A bracketed marker holds a lowercase letter, which no uppercased token
    holds: these entries of the keyword list never match. *)
Lemma bracket_marker_never_found keyword token :
  In keyword bracket_markers -> contains keyword (upper token) = false.
Proof.
  intros Hk. destruct (contains keyword (upper token)) eqn:Hc; [| reflexivity].
  exfalso.
  assert (Hlow : exists c, In c keyword /\ islower c = true).
  { cbn in Hk.
    destruct Hk as [<-|[<-|[<-|[<-|[<-|[]]]]]];
      eexists; (split; [right; left; reflexivity | reflexivity]). }
  destruct Hlow as [c [Hin Hl]].
  apply (contains_In _ _ c Hc) in Hin. apply upper_In in Hin.
  destruct Hin as [c0 [_ <-]]. rewrite islower_upper_char in Hl. discriminate.
Qed.

Lemma hits_stop_keyword_capitals token :
  hits_stop_keyword token =
  existsb (fun keyword => contains keyword (upper token)) capital_keywords.
Proof.
  unfold hits_stop_keyword.
  rewrite <- (firstn_skipn 9 stop_keywords) at 1.
  fold capital_keywords. fold bracket_markers. rewrite existsb_app.
  replace (existsb _ bracket_markers) with false; [apply orb_false_r|].
  symmetry. destruct (existsb _ bracket_markers) eqn:E; [| reflexivity].
  apply existsb_exists in E. destruct E as [k [Hk Hc]].
  rewrite (bracket_marker_never_found k token Hk) in Hc. discriminate.
Qed.

(** A token that hits a stop keyword holds a letter. *)
Lemma hits_stop_keyword_alpha token :
  hits_stop_keyword token = true -> existsb isalpha token = true.
Proof.
  unfold hits_stop_keyword. intros H. apply existsb_exists in H.
  destruct H as [k [Hk Hc]].
  assert (Ha : exists c, In c k /\ isalpha c = true).
  { cbn in Hk.
    repeat (destruct Hk as [<-|Hk];
            [eexists; (split; [right; left; reflexivity | reflexivity])|]).
    contradiction. }
  destruct Ha as [c [Hin Ha]].
  apply (contains_In _ _ c Hc) in Hin. apply upper_In in Hin.
  destruct Hin as [c0 [Hc0 <-]]. rewrite isalpha_upper_char in Ha.
  apply existsb_exists. eauto.
Qed.

(** A token whose cleaned form is a number hits no stop keyword. *)
Lemma digits_hit_no_stop_keyword token :
  str_isdigit (spec_clean token) = true -> hits_stop_keyword token = false.
Proof.
  intros Hd. destruct (hits_stop_keyword token) eqn:Hs; [| reflexivity].
  apply hits_stop_keyword_alpha, spec_clean_keeps_alpha, alpha_not_all_digits in Hs.
  congruence.
Qed.

(** ** Skipped lines *)

Lemma line_body_skipped st line :
  line_is_skipped line = true ->
  exists flag, line_body st line = Ok (Next (flag, snd st)).
Proof.
  destruct st as [in_table point_names]. unfold line_is_skipped, line_body.
  cbv zeta. cbn [snd].
  destruct (is_empty (strip line)); [eauto|].
  destruct (contains _ (upper (strip line))); [eauto|].
  destruct (existsb _ skip_markers); [eauto|].
  destruct (re_match row_pattern (strip line)); [discriminate | eauto].
Qed.

Lemma scan_all_skipped lines st :
  Forall (fun line => line_is_skipped line = true) lines ->
  exists st', for_each line_body st lines = Ok st' /\ snd st' = snd st.
Proof.
  intros Hl.
  apply (for_each_inv line_body (fun line => line_is_skipped line = true)
           (fun st' => snd st' = snd st) (fun st' => snd st' = snd st));
    [| auto | exact Hl | reflexivity].
  intros st0 x Hx Hst0. destruct (line_body_skipped st0 x Hx) as [flag Hb].
  exists (Next (flag, snd st0)). split; [exact Hb | exact Hst0].
Qed.

(** * The claims *)

(** C1 (as amended). On the three-line document made of the header
    "NO. | POINT NAME | STATE", the row "1 | Pump 1 Run Status | CLOSE" and
    the row "2 | Spare", [extract_point_names_from_text] returns exactly
    ["Pump 1"]: the header line is skipped, the "Spare" row is extracted as
    "Spare" and rejected by the validator, and the name of the first row
    ends at the short number "1", which the numeric rule appends before it
    stops. *)
Theorem header_row_spare_document_names :
  extract_point_names_from_text header_row_spare_document = Ok [lit "Pump 1"] /\
  line_is_skipped "NO. | POINT NAME | STATE" = true /\
  extract_point_name_from_section "Pump 1 Run Status" = Ok (lit "Pump 1") /\
  extract_point_name_from_section "Spare" = Ok (lit "Spare") /\
  is_valid_point_name "Spare" = false.
Proof. repeat split; vm_compute; reflexivity. Qed.

(** C1 (as stated) fails: the document does not yield
    ["Pump 1 Run Status"]. *)
Lemma header_row_spare_document_not_full_name :
  extract_point_names_from_text header_row_spare_document
  <> Ok [lit "Pump 1 Run Status"].
Proof. vm_compute. discriminate. Qed.

(** C2. Every name returned by [extract_point_names_from_text] is non-empty
    and not all-whitespace, has trimmed length greater than 1, contains an
    alphabetic character, is not solely numeric, and its uppercased form
    does not contain "SPARE". *)
Theorem returned_names_are_valid text names name :
  extract_point_names_from_text text = Ok names ->
  In name names ->
  name <> [] /\ forallb isspace name = false /\ 1 < length (strip name) /\
  existsb isalpha name = true /\ str_isdigit name = false /\
  contains "SPARE" (upper name) = false.
Proof.
  intros Hrun Hin.
  destruct (extract_point_names_from_text_ok text) as [names' [Hrun' Hall]].
  rewrite Hrun in Hrun'. injection Hrun' as <-.
  rewrite Forall_forall in Hall. destruct (Hall name Hin) as [_ [_ [_ [_ Hv]]]].
  apply is_valid_point_name_true. exact Hv.
Qed.

Lemma returned_names_are_valid_witness :
  extract_point_names_from_text header_row_spare_document = Ok [lit "Pump 1"] /\
  In (lit "Pump 1") [lit "Pump 1"] /\
  lit "Pump 1" <> [] /\ forallb isspace (lit "Pump 1") = false /\
  1 < length (strip "Pump 1") /\ existsb isalpha (lit "Pump 1") = true /\
  str_isdigit "Pump 1" = false /\ contains "SPARE" (upper "Pump 1") = false.
Proof.
  split; [reflexivity|]. split; [left; reflexivity|].
  apply (returned_names_are_valid header_row_spare_document [lit "Pump 1"]);
    [reflexivity | left; reflexivity].
Defined.

(** C3 (the code at the failing input). The raw token "[or" does not stop
    the loop: it is cleaned to "or" and appended, so "Pump [or X" yields
    "Pump or X".  In general the stop check answers as if the list held the
    nine capital keywords only: the bracketed markers are compared with the
    uppercased token and never match. *)
Theorem bracket_marker_token_not_stopped :
  hits_stop_keyword "[or" = false /\
  token_body [lit "Pump"] "[or" = Ok (Next [lit "Pump"; lit "or"]) /\
  extract_point_name_from_section "Pump [or X" = Ok (lit "Pump or X") /\
  (forall token,
     hits_stop_keyword token =
     existsb (fun keyword => contains keyword (upper token)) capital_keywords).
Proof.
  split; [reflexivity|]. split; [reflexivity|]. split; [reflexivity|].
  exact hits_stop_keyword_capitals.
Qed.

(** C4. When the cleaned token consists solely of digits: with an empty
    accumulator it is appended and the loop goes on; with a non-empty
    accumulator and at most two digits it is appended and the loop stops;
    with a non-empty accumulator and more than two digits the loop stops
    without appending.  And "Feeder 7 Amps 001" yields "Feeder 7". *)
Theorem numeric_continuation_rule :
  (forall name_tokens token cleaned,
      clean_ocr_artifacts token = Ok cleaned ->
      str_isdigit cleaned = true ->
      (name_tokens = [] ->
       token_body name_tokens token = Ok (Next [cleaned])) /\
      (name_tokens <> [] -> length cleaned <= 2 ->
       token_body name_tokens token = Ok (Break (name_tokens ++ [cleaned]))) /\
      (name_tokens <> [] -> 2 < length cleaned ->
       token_body name_tokens token = Ok (Break name_tokens))) /\
  extract_point_name_from_section "Feeder 7 Amps 001" = Ok (lit "Feeder 7").
Proof.
  split; [| reflexivity].
  intros acc token cleaned Hclean Hdig.
  rewrite clean_ocr_artifacts_ok in Hclean. injection Hclean as <-.
  rewrite token_body_ok, (digits_hit_no_stop_keyword token Hdig). cbv zeta.
  assert (He : is_empty (spec_clean token) || (length (spec_clean token) <? 1)
               = false).
  { destruct (spec_clean token); [discriminate | reflexivity]. }
  rewrite He, Hdig. cbn [andb].
  split; [| split].
  - intros ->. reflexivity.
  - intros Hne Hlen. destruct acc as [|t acc]; [congruence|]. cbn [length Nat.ltb Nat.leb].
    apply Nat.leb_le in Hlen. unfold MAX_SMALL_NUMBER_LENGTH. rewrite Hlen. reflexivity.
  - intros Hne Hlen. destruct acc as [|t acc]; [congruence|]. cbn [length Nat.ltb Nat.leb].
    apply Nat.leb_gt in Hlen. unfold MAX_SMALL_NUMBER_LENGTH. rewrite Hlen. reflexivity.
Qed.

Lemma numeric_continuation_rule_witness :
  token_body [] "52" = Ok (Next [lit "52"]) /\
  token_body [lit "Feeder"] "7" = Ok (Break [lit "Feeder"; lit "7"]) /\
  token_body [lit "Feeder"] "001" = Ok (Break [lit "Feeder"]).
Proof.
  split; [| split].
  - apply (proj1 numeric_continuation_rule [] (lit "52") (lit "52"));
      reflexivity.
  - apply (proj1 numeric_continuation_rule [lit "Feeder"] (lit "7") (lit "7"));
      [reflexivity | reflexivity | discriminate | simpl; lia].
  - apply (proj1 numeric_continuation_rule [lit "Feeder"] (lit "001") (lit "001"));
      [reflexivity | reflexivity | discriminate | simpl; lia].
Defined.

(** C5. [is_valid_point_name] answers false exactly when the name is empty
    or all-whitespace, or its uppercased form contains "SPARE", or its
    trimmed length is at most 1, or it has no alphabetic character; it
    answers true otherwise.  "Spare", "SPARE 12", "", "1" and "12" are
    rejected and "Pump 1" is accepted. *)
Theorem is_valid_point_name_rejections :
  (forall name,
      is_valid_point_name name = false <->
      blank name \/
      contains "SPARE" (upper name) = true \/
      length (strip name) <= 1 \/
      existsb isalpha name = false) /\
  (forall name,
      is_valid_point_name name = true <->
      ~ (blank name \/
         contains "SPARE" (upper name) = true \/
         length (strip name) <= 1 \/
         existsb isalpha name = false)) /\
  is_valid_point_name "Spare" = false /\
  is_valid_point_name "SPARE 12" = false /\
  is_valid_point_name "" = false /\
  is_valid_point_name "1" = false /\
  is_valid_point_name "12" = false /\
  is_valid_point_name "Pump 1" = true.
Proof.
  assert (Hfalse : forall name,
      is_valid_point_name name = false <->
      blank name \/
      contains "SPARE" (upper name) = true \/
      length (strip name) <= 1 \/
      existsb isalpha name = false).
  { intros name. rewrite is_valid_point_name_formula, negb_false_iff.
    rewrite !orb_true_iff, negb_true_iff, Nat.leb_le. unfold blank. split.
    - intros [[[H|H]|H]|H]; auto.
    - intros [[H|H]|[H|[H|H]]]; auto. subst name. auto. }
  split; [exact Hfalse|]. split; [| repeat split].
  intros name. rewrite <- Hfalse.
  destruct (is_valid_point_name name); split; congruence.
Qed.

Lemma is_valid_point_name_rejections_witness :
  is_valid_point_name "14" = false /\ is_valid_point_name "Main Breaker" = true.
Proof.
  split.
  - apply (proj1 is_valid_point_name_rejections (lit "14")).
    right. right. right. reflexivity.
  - apply (proj1 (proj2 is_valid_point_name_rejections) (lit "Main Breaker")).
    unfold blank. intros [[H|H]|[H|[H|H]]]; try discriminate.
    vm_compute in H. lia.
Defined.

(** C6. If the cleaned form of a token does not begin with a lowercase "l"
    followed by an uppercase character and does not begin with "/", then
    cleaning it again changes nothing. *)
Theorem clean_ocr_artifacts_idempotent token cleaned :
  clean_ocr_artifacts token = Ok cleaned ->
  begins_l_upper cleaned = false ->
  startswith "/" cleaned = false ->
  clean_ocr_artifacts cleaned = Ok cleaned.
Proof.
  intros Hclean Hl Hs.
  rewrite clean_ocr_artifacts_ok in Hclean. injection Hclean as Hc.
  rewrite clean_ocr_artifacts_ok. f_equal.
  assert (Hart : remove_artifacts cleaned = cleaned).
  { apply remove_artifacts_id, Forall_forall. intros c Hin.
    rewrite <- Hc in Hin. apply spec_clean_chars in Hin. tauto. }
  assert (Hstrip : strip cleaned = cleaned).
  { rewrite <- Hc. unfold spec_clean. apply strip_idem. }
  unfold spec_clean at 1. rewrite delete_chars_remove_artifacts, Hart.
  assert (Hdl : spec_drop_l cleaned = cleaned).
  { destruct cleaned as [|a [|c r]]; try reflexivity.
    cbn [spec_drop_l]. cbn [begins_l_upper] in Hl. rewrite Hl. reflexivity. }
  assert (Hds : spec_drop_slash cleaned = cleaned).
  { destruct cleaned as [|a [|c r]]; try reflexivity.
    cbn [spec_drop_slash]. change (lit "/") with ["/"%char] in Hs.
    cbn [startswith] in Hs. rewrite andb_true_r, Ascii.eqb_sym in Hs.
    rewrite Hs. reflexivity. }
  rewrite Hdl, Hds. exact Hstrip.
Qed.

Lemma clean_ocr_artifacts_idempotent_witness :
  clean_ocr_artifacts "[lINPUT]" = Ok (lit "INPUT") /\
  clean_ocr_artifacts "INPUT" = Ok (lit "INPUT").
Proof.
  split; [reflexivity|].
  apply (clean_ocr_artifacts_idempotent (lit "[lINPUT]") (lit "INPUT"));
    reflexivity.
Defined.

(** C7. [extract_point_names_from_text] returns a sequence on every input
    and never raises.  A line that the row pattern does not match leaves
    the names as they are; a token that cleans to the empty string leaves
    the accumulator as it is and the token loop goes on; the empty document
    and every document whose lines are all skipped yield the empty
    sequence. *)
Theorem extract_point_names_from_text_total :
  (forall text, exists names, extract_point_names_from_text text = Ok names) /\
  (forall in_table point_names line,
      re_match row_pattern (strip line) = None ->
      exists flag,
        line_body (in_table, point_names) line = Ok (Next (flag, point_names))) /\
  (forall name_tokens token,
      hits_stop_keyword token = false ->
      clean_ocr_artifacts token = Ok [] ->
      token_body name_tokens token = Ok (Next name_tokens)) /\
  extract_point_names_from_text "" = Ok [] /\
  (forall text,
      Forall (fun line => line_is_skipped line = true) (split_on "010" text) ->
      extract_point_names_from_text text = Ok []).
Proof.
  split; [| split; [| split; [| split]]].
  - intros text. destruct (extract_point_names_from_text_ok text) as [names [H _]].
    exists names. exact H.
  - intros in_table point_names line Hm.
    apply (line_body_skipped (in_table, point_names) line).
    unfold line_is_skipped. cbv zeta. rewrite Hm. apply orb_true_r.
  - intros acc token Hstop Hclean. unfold token_body.
    rewrite Hstop, Hclean. reflexivity.
  - reflexivity.
  - intros text Hall. unfold extract_point_names_from_text.
    destruct (scan_all_skipped _ (false, []) Hall) as [st' [Hrun Hsnd]].
    rewrite Hrun. cbn [bind]. rewrite Hsnd. reflexivity.
Qed.

Lemma extract_point_names_from_text_total_witness :
  line_body (true, [lit "Pump 1"]) "Page 3 of 7"
  = Ok (Next (true, [lit "Pump 1"])) /\
  token_body [lit "Pump"] "[]" = Ok (Next [lit "Pump"]) /\
  extract_point_names_from_text
    (document [lit "RTU POINT LIST"; lit ""; lit "NO. | POINT NAME"; lit "12"])
  = Ok [].
Proof.
  split; [| split].
  - destruct (proj1 (proj2 extract_point_names_from_text_total)
                true [lit "Pump 1"] (lit "Page 3 of 7") eq_refl) as [flag H].
    rewrite H. vm_compute in H. injection H as <-. reflexivity.
  - apply (proj1 (proj2 (proj2 extract_point_names_from_text_total)));
      reflexivity.
  - apply (proj2 (proj2 (proj2 (proj2 extract_point_names_from_text_total)))).
    vm_compute. repeat constructor.
Defined.

(** C8. [clean_ocr_artifacts] deletes every "|", "[", "]", "(", ")", "{",
    "}" and "_"; then drops a leading "l" that stands before an uppercase
    character; then drops a leading "/" of a string longer than one
    character; then trims.  It never raises, and the empty token is cleaned
    to the empty token. *)
Theorem clean_ocr_artifacts_refines_spec :
  (forall token, clean_ocr_artifacts token = Ok (spec_clean token)) /\
  clean_ocr_artifacts "" = Ok (lit "").
Proof. split; [exact clean_ocr_artifacts_ok | reflexivity]. Qed.

(** C9. No name returned by [extract_point_names_from_text] contains any of
    the characters "|", "[", "]", "(", ")", "{", "}", "_". *)
Theorem returned_names_have_no_artifacts text names name c :
  extract_point_names_from_text text = Ok names ->
  In name names ->
  In c (lit "|[](){}_") ->
  ~ In c name.
Proof.
  intros Hrun Hin Hc Hcn.
  destruct (extract_point_names_from_text_ok text) as [names' [Hrun' Hall]].
  rewrite Hrun in Hrun'. injection Hrun' as <-.
  rewrite Forall_forall in Hall.
  destruct (Hall name Hin) as [nt [-> [[Hclean _] _]]].
  assert (Hart : artifact c = true).
  { unfold artifact. apply existsb_exists. exists c. split; [exact Hc|].
    apply Ascii.eqb_refl. }
  apply join_chars in Hcn. destruct Hcn as [-> | [t [Ht Hct]]].
  - discriminate.
  - rewrite Forall_forall in Hclean. destruct (Hclean t Ht) as [_ Hnoart].
    rewrite Forall_forall in Hnoart. rewrite (Hnoart c Hct) in Hart. discriminate.
Qed.

Lemma returned_names_have_no_artifacts_witness :
  extract_point_names_from_text "7 [ Tank_Level (ft) | x" = Ok [lit "TankLevel ft"] /\
  ~ In "_"%char (lit "TankLevel ft").
Proof.
  split; [reflexivity|].
  apply (returned_names_have_no_artifacts
           (lit "7 [ Tank_Level (ft) | x") [lit "TankLevel ft"]);
    [reflexivity | left; reflexivity | simpl; tauto].
Defined.

(** C10. In the whitespace-separated tokens of the string returned by
    [extract_point_name_from_section], every all-digit token that is not
    the first token is the last token and has at most two digits. *)
Theorem digit_token_is_first_or_short_last remainder result i tok :
  extract_point_name_from_section remainder = Ok result ->
  nth_error (split_ws result) i = Some tok ->
  str_isdigit tok = true ->
  0 < i ->
  S i = length (split_ws result) /\ length tok <= 2.
Proof.
  intros Hrun Hi Hdig Hpos.
  destruct (extract_point_name_from_section_ok remainder)
    as [nt [Hrun' [[_ Hclose] Hsplit]]].
  assert (Hres : result = join " " nt) by congruence.
  rewrite Hres, Hsplit in Hi |- *. exact (Hclose i tok Hi Hdig Hpos).
Qed.

Lemma digit_token_is_first_or_short_last_witness :
  extract_point_name_from_section "52 Feeder 7 Amps 001" = Ok (lit "52 Feeder 7") /\
  3 = length (split_ws "52 Feeder 7") /\ length (lit "7") <= 2.
Proof.
  split; [reflexivity|].
  apply (digit_token_is_first_or_short_last
           (lit "52 Feeder 7 Amps 001") (lit "52 Feeder 7") 2 (lit "7"));
    [reflexivity | reflexivity | reflexivity | lia].
Defined.

(** * Further properties of the parsing core *)

(** ** The token loop, once more *)

Lemma collect_name_tokens_length tokens name_tokens :
  collect_name_tokens tokens = Ok name_tokens ->
  length name_tokens <= MAX_NAME_TOKENS.
Proof.
  intros Hrun.
  destruct (for_each_inv token_body (fun _ => True)
              (fun acc => length acc < MAX_NAME_TOKENS)
              (fun acc => length acc <= MAX_NAME_TOKENS)) with (l := tokens) (st := @nil str)
    as [nt [Hnt Hlen]].
  - intros acc token _ Hacc. rewrite token_body_ok. eexists. split; [reflexivity|].
    unfold MAX_NAME_TOKENS, MAX_SMALL_NUMBER_LENGTH in *.
    destruct (hits_stop_keyword token); [lia|]. cbv zeta.
    destruct (is_empty _ || _); [exact Hacc|].
    destruct (str_isdigit _ && _).
    + destruct (_ <=? 2); [rewrite length_app; simpl; lia | lia].
    + destruct (10 <=? length (acc ++ [spec_clean token])) eqn:E.
      * rewrite length_app. simpl. lia.
      * apply Nat.leb_gt in E. exact E.
  - intros acc H. lia.
  - apply Forall_forall. intros. exact I.
  - unfold MAX_NAME_TOKENS. simpl. lia.
  - unfold collect_name_tokens in Hrun. congruence.
Qed.

(** The section extractor in terms of the token loop, also when there is no
    token at all. *)
Lemma extract_section_collect text :
  exists name_tokens,
    collect_name_tokens (split_ws text) = Ok name_tokens /\
    Forall spaceless name_tokens /\
    extract_point_name_from_section text = Ok (join " " name_tokens).
Proof.
  unfold extract_point_name_from_section.
  destruct (collect_name_tokens_ok (split_ws text) (split_ws_spaceless text))
    as [nt [Hnt [Hclean _]]].
  pose proof (clean_tokens_spaceless nt Hclean) as Hsp.
  exists nt. split; [exact Hnt|]. split; [exact Hsp|].
  destruct (split_ws text) as [|t ts] eqn:Hs.
  - cbn in Hnt. injection Hnt as <-. reflexivity.
  - cbn [is_empty]. rewrite Hnt. cbn [bind].
    rewrite strip_join, collapse_spaces_join by exact Hsp. reflexivity.
Qed.

(** X1. The string returned by [extract_point_name_from_section] has at
    most [MAX_NAME_TOKENS] = 10 whitespace-separated tokens. *)
Theorem section_name_has_at_most_ten_tokens text name :
  extract_point_name_from_section text = Ok name ->
  length (split_ws name) <= 10.
Proof.
  intros Hrun. destruct (extract_section_collect text) as [nt [Hnt [Hsp Hres]]].
  assert (Hname : name = join " " nt) by congruence.
  rewrite Hname, split_ws_join by exact Hsp.
  exact (collect_name_tokens_length _ _ Hnt).
Qed.

Lemma section_name_has_at_most_ten_tokens_witness :
  extract_point_name_from_section "a b c d e f g h i j k l m"
  = Ok (lit "a b c d e f g h i j") /\
  length (split_ws "a b c d e f g h i j") <= 10.
Proof.
  split; [reflexivity|].
  apply (section_name_has_at_most_ten_tokens (lit "a b c d e f g h i j k l m"));
    reflexivity.
Defined.

(** X2. The string returned by [extract_point_name_from_section] is in
    normal form: it has no leading or trailing whitespace, re-collapsing its
    whitespace changes nothing, and it is the single-space join of its own
    tokens. *)
Theorem section_name_is_normalised text name :
  extract_point_name_from_section text = Ok name ->
  strip name = name /\
  collapse_spaces name = name /\
  join " " (split_ws name) = name.
Proof.
  intros Hrun. destruct (extract_section_collect text) as [nt [_ [Hsp Hres]]].
  assert (Hname : name = join " " nt) by congruence.
  rewrite Hname, strip_join, collapse_spaces_join, split_ws_join by exact Hsp.
  repeat split.
Qed.

Lemma section_name_is_normalised_witness :
  extract_point_name_from_section "  Main   [Breaker]_Trip  " = Ok (lit "Main BreakerTrip") /\
  strip "Main BreakerTrip" = lit "Main BreakerTrip" /\
  collapse_spaces "Main BreakerTrip" = lit "Main BreakerTrip" /\
  join " " (split_ws "Main BreakerTrip") = lit "Main BreakerTrip".
Proof.
  split; [reflexivity|].
  apply (section_name_is_normalised (lit "  Main   [Breaker]_Trip  "));
    reflexivity.
Defined.

(** ** Everything after a stop keyword is ignored *)

Lemma for_each_break_at {A S : Type} (body : S -> A -> result (ctl S)) x :
  (forall st, body st x = Ok (Break st)) ->
  forall pre post st,
    for_each body st (pre ++ x :: post) = for_each body st pre.
Proof.
  intros Hx pre post. induction pre as [|y pre IH]; intros st.
  - simpl. rewrite Hx. reflexivity.
  - simpl. destruct (body st y) as [[st'|st']|e]; simpl; [apply IH | reflexivity | reflexivity].
Qed.

Lemma Forall_spaceless_app_l (pre : list str) rest :
  Forall spaceless (pre ++ rest) -> Forall spaceless pre.
Proof. intros H. apply Forall_app in H. tauto. Qed.

(** X3. If a token of the section hits a stop keyword, the tokens that
    follow it do not matter: the section yields the same name as the
    single-space join of the tokens before it does. *)
Theorem tokens_after_stop_keyword_ignored text pre token post :
  split_ws text = pre ++ token :: post ->
  hits_stop_keyword token = true ->
  extract_point_name_from_section text
  = extract_point_name_from_section (join " " pre).
Proof.
  intros Hsplit Hstop.
  assert (Hpre : Forall spaceless pre).
  { apply (Forall_spaceless_app_l pre (token :: post)). rewrite <- Hsplit.
    apply split_ws_spaceless. }
  destruct (extract_section_collect text) as [nt [Hnt [_ Hres]]].
  destruct (extract_section_collect (join " " pre)) as [nt' [Hnt' [_ Hres']]].
  rewrite Hres, Hres'. do 2 f_equal.
  rewrite Hsplit in Hnt. rewrite split_ws_join in Hnt' by exact Hpre.
  unfold collect_name_tokens in *.
  rewrite for_each_break_at in Hnt; [congruence|].
  intros st. unfold token_body. rewrite Hstop. reflexivity.
Qed.

Lemma tokens_after_stop_keyword_ignored_witness :
  extract_point_name_from_section "Bus Tie Breaker Closed 125 Vdc"
  = extract_point_name_from_section "Bus Tie Breaker".
Proof.
  apply (tokens_after_stop_keyword_ignored
           (lit "Bus Tie Breaker Closed 125 Vdc")
           [lit "Bus"; lit "Tie"; lit "Breaker"] (lit "Closed")
           [lit "125"; lit "Vdc"]); reflexivity.
Defined.

(** ** The document as the concatenation of its lines *)

(** What a line adds does not depend on the flag or on the names collected
    so far. *)
Lemma line_body_names in_table point_names line :
  exists flag,
    line_body (in_table, point_names) line
    = Ok (Next (flag, point_names ++ line_names line)).
Proof.
  unfold line_names, line_body.
  destruct (is_empty (strip line));
    [exists in_table; rewrite app_nil_r; reflexivity|].
  destruct (contains _ (upper (strip line)));
    [exists true; rewrite app_nil_r; reflexivity|].
  destruct (existsb _ skip_markers);
    [exists in_table; rewrite app_nil_r; reflexivity|].
  destruct (re_match row_pattern (strip line)) as [m|] eqn:Hm;
    [| exists in_table; rewrite app_nil_r; reflexivity].
  apply re_match_length in Hm.
  destruct m as [|g1 [|g2 [|g3 [|g4 [|g5 m]]]]]; try discriminate.
  cbn [group2 index nth_error bind].
  destruct (split_on "|" (strip g4)) as [|s0 ss] eqn:Hs;
    [exfalso; exact (split_on_nonempty _ _ Hs)|].
  cbn [index nth_error bind].
  destruct (extract_point_name_from_section_ok (strip s0)) as [nt [Hnt _]].
  rewrite Hnt. cbn [bind].
  destruct (negb (is_empty (join " " nt)) && is_valid_point_name (join " " nt));
    exists in_table; [reflexivity | rewrite app_nil_r; reflexivity].
Qed.

Lemma line_names_at_most_one line : length (line_names line) <= 1.
Proof.
  destruct (line_body_step (false, []) line) as [st' [Hb Hcase]].
  unfold line_names. rewrite Hb. destruct st' as [f names]. cbn [snd] in Hcase.
  destruct Hcase as [-> | [nt [-> _]]]; simpl; lia.
Qed.

Lemma scan_names lines :
  forall in_table point_names,
    exists flag,
      for_each line_body (in_table, point_names) lines
      = Ok (flag, point_names ++ flat_map line_names lines).
Proof.
  induction lines as [|line lines IH]; intros f acc.
  - exists f. simpl. rewrite app_nil_r. reflexivity.
  - destruct (line_body_names f acc line) as [f1 H1].
    destruct (IH f1 (acc ++ line_names line)) as [f2 H2].
    exists f2. cbn [for_each flat_map]. rewrite H1. cbn [bind].
    rewrite H2, app_assoc. reflexivity.
Qed.

Lemma extract_point_names_from_text_lines text :
  extract_point_names_from_text text
  = Ok (flat_map line_names (split_on "010" text)).
Proof.
  unfold extract_point_names_from_text.
  destruct (scan_names (split_on "010" text) false []) as [flag H].
  rewrite H. reflexivity.
Qed.

Lemma split_on_app sep a b :
  split_on sep (a ++ sep :: b) = split_on sep a ++ split_on sep b.
Proof.
  induction a as [|c a IH]; cbn [app split_on].
  - rewrite Ascii.eqb_refl. reflexivity.
  - destruct (Ascii.eqb c sep); rewrite IH; [reflexivity|].
    destruct (split_on sep a) as [|t ts] eqn:Ha;
      [exfalso; exact (split_on_nonempty _ _ Ha) | reflexivity].
Qed.

Lemma length_flat_map_le {A B : Type} (f : A -> list B) n l :
  (forall x, length (f x) <= n) -> length (flat_map f l) <= n * length l.
Proof.
  intros Hf. induction l as [|x l IH]; simpl; [lia|].
  rewrite length_app. specialize (Hf x). lia.
Qed.

(** X4. Putting one document after another, with a line feed between them,
    yields the names of the first followed by the names of the second: the
    scan carries nothing from line to line but the names themselves. *)
Theorem names_of_concatenated_documents text1 text2 names1 names2 :
  extract_point_names_from_text text1 = Ok names1 ->
  extract_point_names_from_text text2 = Ok names2 ->
  extract_point_names_from_text (text1 ++ LF ++ text2) = Ok (names1 ++ names2).
Proof.
  rewrite !extract_point_names_from_text_lines. intros H1 H2.
  injection H1 as <-. injection H2 as <-.
  change (text1 ++ LF ++ text2) with (text1 ++ "010"%char :: text2).
  rewrite split_on_app, flat_map_app. reflexivity.
Qed.

Lemma names_of_concatenated_documents_witness :
  extract_point_names_from_text
    (lit "1 | Pump A Run" ++ LF ++ lit "2 | Spare" ++ LF ++ lit "3 | Pump A Run")
  = Ok ([lit "Pump A Run"] ++ [lit "Pump A Run"]).
Proof.
  apply (names_of_concatenated_documents
           (lit "1 | Pump A Run") (lit "2 | Spare" ++ LF ++ lit "3 | Pump A Run"));
    reflexivity.
Defined.

(** X5. A document yields at most one name per line. *)
Theorem at_most_one_name_per_line text names :
  extract_point_names_from_text text = Ok names ->
  length names <= length (split_on "010" text).
Proof.
  rewrite extract_point_names_from_text_lines. intros H. injection H as <-.
  pose proof (length_flat_map_le line_names 1 (split_on "010" text)
                line_names_at_most_one). lia.
Qed.

Lemma at_most_one_name_per_line_witness :
  length [lit "Pump 1"] <= length (split_on "010" header_row_spare_document).
Proof.
  apply (at_most_one_name_per_line header_row_spare_document [lit "Pump 1"]).
  reflexivity.
Defined.

(** ** Which lines are rows *)

(** X6. A line whose first character after trimming is not a digit adds no
    name, whatever else it holds. *)
Theorem line_without_leading_digit_adds_nothing in_table point_names line :
  (forall c rest, strip line = c :: rest -> isdigit c = false) ->
  exists flag,
    line_body (in_table, point_names) line = Ok (Next (flag, point_names)).
Proof.
  intros Hlead. apply (line_body_skipped (in_table, point_names) line).
  unfold line_is_skipped. cbv zeta.
  destruct (re_match row_pattern (strip line)) as [m|] eqn:Hm;
    [| apply orb_true_r].
  exfalso. apply re_match_sound in Hm.
  destruct m as [|g m]; [contradiction|].
  destruct Hm as [Hdig [Hmin [s' [Hs _]]]].
  destruct g as [|c g]; [simpl in Hmin; lia|].
  simpl in Hdig. apply andb_true_iff in Hdig. destruct Hdig as [Hc _].
  unfold re_digit in Hc. rewrite (Hlead c (g ++ s') Hs) in Hc. discriminate.
Qed.

Lemma line_without_leading_digit_adds_nothing_witness :
  exists flag,
    line_body (false, []) "Pump 1 Run Status | CLOSE" = Ok (Next (flag, [])).
Proof.
  apply (line_without_leading_digit_adds_nothing false []
           (lit "Pump 1 Run Status | CLOSE")).
  intros c rest H. vm_compute in H. injection H as <- _. reflexivity.
Defined.

(** ** What the row pattern captures *)

Lemma span_len_all cls a b :
  forallb cls a = true -> span_len cls (a ++ b) = length a + span_len cls b.
Proof.
  induction a as [|c a IH]; simpl; [reflexivity|].
  rewrite andb_true_iff. intros [Hc Ha]. rewrite Hc, (IH Ha). reflexivity.
Qed.

Lemma span_len_le cls s : span_len cls s <= length s.
Proof.
  induction s as [|c s IH]; simpl; [lia|]. destruct (cls c); lia.
Qed.

Lemma span_len_app_stop cls s c r :
  cls c = false -> span_len cls (s ++ c :: r) = span_len cls s.
Proof.
  intros Hc. induction s as [|d s IH]; simpl; [rewrite Hc; reflexivity|].
  destruct (cls d); [rewrite IH|]; reflexivity.
Qed.

Lemma skipn_app_le {A : Type} n (a b : list A) :
  n <= length a -> skipn n (a ++ b) = skipn n a ++ b.
Proof.
  intros Hn. rewrite skipn_app. replace (n - length a) with 0 by lia.
  reflexivity.
Qed.

Lemma firstn_exact {A : Type} (a b : list A) : firstn (length a) (a ++ b) = a.
Proof. induction a as [|x a IH]; simpl; [reflexivity | rewrite IH; reflexivity]. Qed.

Lemma skipn_exact {A : Type} (a b : list A) : skipn (length a) (a ++ b) = b.
Proof. induction a as [|x a IH]; simpl; [reflexivity | exact IH]. Qed.

Lemma forallb_skipn {A : Type} (f : A -> bool) n l :
  forallb f l = true -> forallb f (skipn n l) = true.
Proof.
  revert l. induction n as [|n IH]; intros l; [auto|].
  destruct l as [|x l]; simpl; [auto|].
  rewrite andb_true_iff. intros [_ H]. apply IH, H.
Qed.

Lemma backtrack_hit rest lo s k gs :
  lo <= k -> rest (skipn k s) = Some gs ->
  backtrack rest lo s k = Some (firstn k s :: gs).
Proof.
  intros Hlo Hr. destruct k; cbn [backtrack];
    (replace (_ <? lo) with false by (symmetry; apply Nat.ltb_ge; lia));
    rewrite Hr; reflexivity.
Qed.

Lemma backtrack_miss rest lo s k :
  lo <= S k -> rest (skipn (S k) s) = None ->
  backtrack rest lo s (S k) = backtrack rest lo s k.
Proof.
  intros Hlo Hr. cbn [backtrack].
  replace (_ <? lo) with false by (symmetry; apply Nat.ltb_ge; lia).
  rewrite Hr. reflexivity.
Qed.

Lemma space_is_sep c : re_space c = true -> re_sep c = true.
Proof. unfold re_space, re_sep. intros ->. apply orb_true_r. Qed.

Lemma sep_not_digit c : re_sep c = true -> re_digit c = false.
Proof. by_cases_on_char c. Qed.

(** [(.+)] on a non-empty text without line feed takes all of it. *)
Lemma dot_match r :
  r <> [] -> forallb re_dot r = true -> re_match [plus re_dot] r = Some [r].
Proof.
  intros Hne Hdot.
  change (re_match [plus re_dot] r)
    with (backtrack (re_match []) 1 r (span_len re_dot r)).
  rewrite <- (app_nil_r r) at 2. rewrite span_len_all by exact Hdot.
  cbn [span_len]. rewrite Nat.add_0_r.
  rewrite (backtrack_hit _ 1 r (length r) []).
  - rewrite <- (app_nil_r r) at 2. rewrite firstn_exact. reflexivity.
  - destruct r; [congruence | simpl; lia].
  - reflexivity.
Qed.

(** [[|\[\s]+(.+)] on a run of separators followed by a text that does not
    begin with one. *)
Lemma sep_dot_match t c r :
  t <> [] -> forallb re_sep t = true -> re_sep c = false ->
  forallb re_dot (c :: r) = true ->
  re_match [plus re_sep; plus re_dot] (t ++ c :: r) = Some [t; c :: r].
Proof.
  intros Hne Hsep Hc Hdot.
  change (re_match [plus re_sep; plus re_dot] (t ++ c :: r))
    with (backtrack (re_match [plus re_dot]) 1 (t ++ c :: r)
            (span_len re_sep (t ++ c :: r))).
  rewrite span_len_all by exact Hsep. cbn [span_len]. rewrite Hc, Nat.add_0_r.
  rewrite (backtrack_hit _ 1 _ (length t) [c :: r]).
  - rewrite firstn_exact. reflexivity.
  - destruct t; [congruence | simpl; lia].
  - rewrite skipn_exact. apply dot_match; [discriminate | exact Hdot].
Qed.

Lemma sep_dot_no_match c r :
  re_sep c = false -> re_match [plus re_sep; plus re_dot] (c :: r) = None.
Proof.
  intros Hc.
  change (re_match [plus re_sep; plus re_dot] (c :: r))
    with (backtrack (re_match [plus re_dot]) 1 (c :: r)
            (span_len re_sep (c :: r))).
  cbn [span_len]. rewrite Hc. reflexivity.
Qed.

(** [\s*[|\[\s]+(.+)]: whatever the two separator pieces share out between
    them, the last piece takes the text after the separators. *)
Lemma space_sep_dot_match s c r :
  s <> [] -> forallb re_sep s = true -> re_sep c = false ->
  forallb re_dot (c :: r) = true ->
  exists g2 g3,
    re_match [star re_space; plus re_sep; plus re_dot] (s ++ c :: r)
    = Some [g2; g3; c :: r].
Proof.
  intros Hne Hsep Hc Hdot.
  change (re_match [star re_space; plus re_sep; plus re_dot] (s ++ c :: r))
    with (backtrack (re_match [plus re_sep; plus re_dot]) 0 (s ++ c :: r)
            (span_len re_space (s ++ c :: r))).
  assert (Hcs : re_space c = false).
  { destruct (re_space c) eqn:E; [| reflexivity].
    apply space_is_sep in E. congruence. }
  rewrite span_len_app_stop by exact Hcs.
  pose proof (span_len_le re_space s) as Hw.
  set (w := span_len re_space s) in *.
  destruct (skipn w s) as [|x t] eqn:Ht.
  - assert (Hwl : w = length s).
    { pose proof (length_skipn w s) as Hl. rewrite Ht in Hl. simpl in Hl. lia. }
    destruct w as [|w']; [destruct s; [congruence | discriminate]|].
    rewrite backtrack_miss; [| lia |].
    + assert (Hlast : skipn w' s <> []).
      { intros E. pose proof (length_skipn w' s) as Hl. rewrite E in Hl.
        simpl in Hl. lia. }
      eexists. eexists. apply backtrack_hit; [lia|].
      rewrite skipn_app_le by lia.
      apply sep_dot_match; [exact Hlast | apply forallb_skipn; exact Hsep | exact Hc | exact Hdot].
    + rewrite skipn_app_le, Ht by lia. apply sep_dot_no_match. exact Hc.
  - eexists. eexists. apply backtrack_hit; [lia|].
    rewrite skipn_app_le, Ht by lia.
    apply sep_dot_match; [discriminate | | exact Hc | exact Hdot].
    rewrite <- Ht. apply forallb_skipn. exact Hsep.
Qed.

(** X7. On a line made of a number, a run of separators (pipes, opening
    brackets, whitespace) and a text that does not begin with a separator,
    the row pattern matches and its second group is that text, whole. *)
Theorem row_pattern_captures_remainder number seps c rest :
  number <> [] -> forallb isdigit number = true ->
  seps <> [] -> forallb re_sep seps = true ->
  re_sep c = false -> forallb re_dot (c :: rest) = true ->
  exists m,
    re_match row_pattern (number ++ seps ++ c :: rest) = Some m /\
    group2 m = Ok (c :: rest).
Proof.
  intros Hn Hdig Hs Hsep Hc Hdot.
  destruct (space_sep_dot_match seps c rest Hs Hsep Hc Hdot) as [g2 [g3 Hrest]].
  exists [number; g2; g3; c :: rest]. split; [| reflexivity].
  change (re_match row_pattern (number ++ seps ++ c :: rest))
    with (backtrack (re_match [star re_space; plus re_sep; plus re_dot]) 1
            (number ++ seps ++ c :: rest)
            (span_len re_digit (number ++ seps ++ c :: rest))).
  rewrite span_len_all by exact Hdig.
  assert (Hstop : span_len re_digit (seps ++ c :: rest) = 0).
  { destruct seps as [|x seps]; [congruence|]. simpl in Hsep.
    apply andb_true_iff in Hsep. destruct Hsep as [Hx _].
    simpl. rewrite (sep_not_digit x Hx). reflexivity. }
  rewrite Hstop, Nat.add_0_r.
  rewrite (backtrack_hit _ 1 _ (length number) [g2; g3; c :: rest]).
  - rewrite firstn_exact. reflexivity.
  - destruct number; [congruence | simpl; lia].
  - rewrite skipn_exact. exact Hrest.
Qed.

Lemma row_pattern_captures_remainder_witness :
  exists m,
    re_match row_pattern "14   Main Breaker | DI" = Some m /\
    group2 m = Ok (lit "Main Breaker | DI").
Proof.
  apply (row_pattern_captures_remainder (lit "14") (lit "   ") "M"
           (lit "ain Breaker | DI")); try reflexivity; discriminate.
Defined.

(** * Properties of the orchestration layer *)

(** ** String equality, order and sorting *)

Lemma str_eqb_eq a b : str_eqb a b = true <-> a = b.
Proof.
  revert b. induction a as [|x a IH]; intros [|y b]; simpl;
    try (split; [discriminate | congruence]); [tauto|].
  rewrite andb_true_iff, Ascii.eqb_eq, IH. split.
  - intros [-> ->]. reflexivity.
  - intros H. injection H as -> ->. auto.
Qed.

Lemma str_eqb_refl a : str_eqb a a = true.
Proof. apply str_eqb_eq. reflexivity. Qed.

Lemma str_leb_total a b : str_leb a b = false -> str_leb b a = true.
Proof.
  revert b. induction a as [|x a IH]; intros [|y b]; simpl; try congruence.
  destruct (code x <? code y) eqn:Hxy; [discriminate|].
  destruct (code y <? code x) eqn:Hyx; [reflexivity|]. apply IH.
Qed.

Lemma insert_sorted_perm x l : Permutation (insert_sorted x l) (x :: l).
Proof.
  induction l as [|y l IH]; simpl; [reflexivity|].
  destruct (str_leb x y); [reflexivity|].
  rewrite IH. apply perm_swap.
Qed.

Lemma insert_sorted_ordered x l :
  Sorted (fun a b => str_leb a b = true) l ->
  Sorted (fun a b => str_leb a b = true) (insert_sorted x l).
Proof.
  induction 1 as [|y l Hl IH Hy]; simpl; [repeat constructor|].
  destruct (str_leb x y) eqn:Hxy.
  - constructor; [constructor; assumption | constructor; exact Hxy].
  - constructor; [exact IH|].
    destruct l as [|z l]; simpl.
    + constructor. apply str_leb_total, Hxy.
    + destruct (str_leb x z); constructor;
        [apply str_leb_total, Hxy | inversion Hy; assumption].
Qed.

(** [sorted] gives the same strings, in ascending order. *)
Lemma sorted_ordered_permutation l :
  Permutation (sorted l) l /\ Sorted (fun a b => str_leb a b = true) (sorted l).
Proof.
  induction l as [|x l [IHp IHs]]; simpl; [split; constructor|]. split.
  - rewrite insert_sorted_perm. constructor. exact IHp.
  - apply insert_sorted_ordered. exact IHs.
Qed.

(** ** The sheet type of a file *)





Lemma sheet_type_of_two pdf_file :
  sheet_type_of pdf_file = lit "Status" \/ sheet_type_of pdf_file = lit "Analog".
Proof.
  unfold sheet_type_of. cbv zeta.
  destruct (existsb _ STATUS_INDICATORS); [left; reflexivity|].
  destruct (existsb _ ANALOG_INDICATORS); [right | left]; reflexivity.
Qed.



(** ** Obtaining the text of a PDF *)


(** ** The loop of [main] over the PDF files *)

Lemma file_names_extracted world pdf_file :
  Forall extracted (file_names world pdf_file).
Proof.
  unfold file_names.
  destruct (extract_text_from_pdf (world pdf_file)) as [text|e]; [| constructor].
  destruct (is_empty (strip text)); [constructor|].
  destruct (extract_point_names_from_text_ok text) as [names [-> Hall]].
  exact Hall.
Qed.

Lemma files_of_sheet_cons sheet pdf_file files :
  files_of_sheet sheet (pdf_file :: files)
  = (if str_eqb (sheet_type_of pdf_file) sheet then [pdf_file] else [])
    ++ files_of_sheet sheet files.
Proof.
  unfold files_of_sheet. cbn [filter].
  destruct (str_eqb (sheet_type_of pdf_file) sheet); reflexivity.
Qed.

(** One file: the names of the file are appended to the list of its sheet,
    and an exception anywhere in the [try] block leaves both lists alone. *)
Lemma pdf_body_two_sheets world status analog pdf_file :
  pdf_body world [(lit "Status", status); (lit "Analog", analog)] pdf_file
  = Returns
      [(lit "Status",
        status ++ (if str_eqb (sheet_type_of pdf_file) "Status"
                   then file_names world pdf_file else []));
       (lit "Analog",
        analog ++ (if str_eqb (sheet_type_of pdf_file) "Analog"
                   then file_names world pdf_file else []))].
Proof.
  unfold pdf_body, file_names.
  assert (Hsame : forall names : list str,
             names = [] ->
             Returns [(lit "Status", status); (lit "Analog", analog)]
             = Returns
                 [(lit "Status",
                   status ++ (if str_eqb (sheet_type_of pdf_file) "Status"
                              then names else []));
                  (lit "Analog",
                   analog ++ (if str_eqb (sheet_type_of pdf_file) "Analog"
                              then names else []))]).
  { intros names ->. destruct (str_eqb _ "Status"), (str_eqb _ "Analog");
      rewrite !app_nil_r; reflexivity. }
  destruct (extract_text_from_pdf (world pdf_file)) as [text|e];
    cbn [and_then try_except]; [| apply Hsame; reflexivity].
  destruct (is_empty (strip text)); cbn [try_except]; [apply Hsame; reflexivity|].
  rewrite extract_point_names_from_text_lines. cbn [lift and_then].
  destruct (sheet_type_of_two pdf_file) as [-> | ->]; cbn; rewrite app_nil_r;
    reflexivity.
Qed.

Lemma for_files_two_sheets world files :
  forall status analog,
    for_files (pdf_body world)
      [(lit "Status", status); (lit "Analog", analog)] files
    = Returns
        [(lit "Status",
          status ++ flat_map (file_names world) (files_of_sheet "Status" files));
         (lit "Analog",
          analog ++ flat_map (file_names world) (files_of_sheet "Analog" files))].
Proof.
  induction files as [|f files IH]; intros status analog.
  - cbn. rewrite !app_nil_r. reflexivity.
  - cbn [for_files]. rewrite pdf_body_two_sheets. cbn [and_then].
    rewrite IH, !files_of_sheet_cons, !flat_map_app, <- !app_assoc.
    destruct (str_eqb (sheet_type_of f) "Status"),
             (str_eqb (sheet_type_of f) "Analog");
      cbn [flat_map app]; rewrite ?app_nil_r; reflexivity.
Qed.

Lemma main_two_cases input_exists listing world :
  (input_exists = false \/ filter (endswith ".pdf") listing = [] ->
   main input_exists listing world = Returns (1, None)) /\
  (input_exists = true -> filter (endswith ".pdf") listing <> [] ->
   main input_exists listing world
   = Returns
       (0, Some (create_output_excel
                   [(lit "Status",
                     flat_map (file_names world)
                       (files_of_sheet "Status"
                          (sorted (filter (endswith ".pdf") listing))));
                    (lit "Analog",
                     flat_map (file_names world)
                       (files_of_sheet "Analog"
                          (sorted (filter (endswith ".pdf") listing))))]))).
Proof.
  unfold main. split.
  - intros [-> | ->]; [reflexivity|]. destruct input_exists; reflexivity.
  - intros -> Hpdf. cbn [negb].
    destruct (filter (endswith ".pdf") listing) as [|f fs] eqn:Hf; [congruence|].
    cbn [is_empty]. rewrite for_files_two_sheets. reflexivity.
Qed.



(** ** The worksheet *)

Lemma ws_find_store ws row col x row' col' :
  ws_find (ws_store ws row col x) row' col'
  = if (row =? row') && (col =? col') then Some x else ws_find ws row' col'.
Proof.
  induction ws as [|[[r c] y] ws IH]; cbn [ws_store ws_find].
  - destruct ((row =? row') && (col =? col')); reflexivity.
  - destruct ((r =? row) && (c =? col)) eqn:E; cbn [ws_find].
    + apply andb_true_iff in E. destruct E as [Hr Hc].
      apply Nat.eqb_eq in Hr, Hc. subst r c.
      destruct ((row =? row') && (col =? col')); reflexivity.
    + rewrite IH. destruct ((r =? row') && (c =? col')) eqn:E'; [| reflexivity].
      apply andb_true_iff in E'. destruct E' as [Hr Hc].
      apply Nat.eqb_eq in Hr, Hc. subst row' col'.
      rewrite (Nat.eqb_sym row r), (Nat.eqb_sym col c), E. reflexivity.
Qed.

Lemma ws_cell_store ws row col x row' col' :
  ws_cell (ws_store ws row col x) row' col'
  = if (row =? row') && (col =? col') then x else ws_cell ws row' col'.
Proof.
  unfold ws_cell. rewrite ws_find_store.
  destruct ((row =? row') && (col =? col')); reflexivity.
Qed.

(** Reading back what [write_names] wrote: the rows from [start] on hold the
    names, in order; every other cell is as it was. *)
Lemma write_names_cell point_names :
  forall ws start row col,
    ws_cell (write_names ws start point_names) row col
    = if (col =? 1) && (start <=? row) && (row <? start + length point_names)
      then Cell (nth_error point_names (row - start))
                (cell_bold (ws_cell ws row 1))
      else ws_cell ws row col.
Proof.
  induction point_names as [|name rest IH]; intros ws start row col.
  - cbn [write_names length].
    destruct (Nat.eqb_spec col 1), (Nat.leb_spec start row),
      (Nat.ltb_spec row (start + 0)); cbn [andb]; try reflexivity; lia.
  - cbn [write_names length]. rewrite IH. unfold ws_set_value.
    rewrite !ws_cell_store.
    destruct (Nat.eqb_spec col 1) as [-> | Hcol]; cbn [andb].
    + destruct (Nat.leb_spec (S start) row), (Nat.ltb_spec row (S start + length rest)),
        (Nat.leb_spec start row), (Nat.ltb_spec row (start + S (length rest))),
        (Nat.eqb_spec start row); cbn [andb Nat.eqb]; try lia;
        try reflexivity.
      * replace (row - start) with (S (row - S start)) by lia. reflexivity.
      * subst row. rewrite Nat.sub_diag. reflexivity.
    + replace (1 =? col) with false by (symmetry; apply Nat.eqb_neq; lia).
      rewrite andb_false_r. reflexivity.
Qed.

Lemma sheet_body_layout point_names_by_sheet wb sheet_name :
  exists ws,
    sheet_body point_names_by_sheet wb sheet_name = wb ++ [(sheet_name, ws)] /\
    sheet_layout sheet_name (dict_get point_names_by_sheet sheet_name []) ws.
Proof.
  unfold sheet_body. cbv zeta. eexists. split; [reflexivity|].
  set (names := dict_get point_names_by_sheet sheet_name []).
  unfold sheet_layout.
  split; [| split; [| split; [| split]]].
  - rewrite write_names_cell. reflexivity.
  - rewrite write_names_cell. reflexivity.
  - rewrite write_names_cell. reflexivity.
  - intros i. rewrite write_names_cell.
    replace (6 + i - 6) with i by lia.
    destruct (Nat.ltb_spec (6 + i) (6 + length names)) as [Hlt | Hge];
      cbn -[nth_error Nat.add].
    + reflexivity.
    + rewrite (proj2 (nth_error_None names i)) by lia. reflexivity.
  - intros row col Hcell. rewrite write_names_cell.
    destruct (Nat.eqb_spec col 1) as [-> | Hcol]; cbn [andb].
    + destruct Hcell as [Hc | [-> | [-> | ->]]]; [congruence | | |]; reflexivity.
    + unfold ws_set_value, ws_set_bold. rewrite !ws_cell_store.
      replace (1 =? col) with false by (symmetry; apply Nat.eqb_neq; lia).
      rewrite !andb_false_r. reflexivity.
Qed.

Lemma create_output_excel_sheets point_names_by_sheet :
  exists status analog,
    create_output_excel point_names_by_sheet
    = [(lit "Status", status); (lit "Analog", analog)] /\
    sheet_layout "Status" (dict_get point_names_by_sheet "Status" []) status /\
    sheet_layout "Analog" (dict_get point_names_by_sheet "Analog" []) analog.
Proof.
  unfold create_output_excel. cbv zeta.
  change (if existsb (str_eqb "Sheet") (map fst new_workbook)
          then wb_remove new_workbook "Sheet" else new_workbook)
    with (@nil (str * worksheet)).
  cbn [fold_left].
  destruct (sheet_body_layout point_names_by_sheet [] (lit "Status"))
    as [status [Hs Hls]].
  rewrite Hs.
  destruct (sheet_body_layout point_names_by_sheet
              ([] ++ [(lit "Status", status)]) (lit "Analog"))
    as [analog [Ha Hla]].
  rewrite Ha. exists status, analog. split; [reflexivity|]. split; assumption.
Qed.

(** X11. The workbook that [create_output_excel] saves has exactly two
    sheets, "Status" then "Analog"; the default sheet is gone and keys of
    the dict other than these two are ignored.  In each sheet, cell A1
    holds the title, A3 the subtitle and A5 "POINT NAME", all three bold;
    the cells A6, A7, ... hold the names of that sheet in order, not bold,
    and the first cell after them is empty; rows 2 and 4 and every other
    column are empty.  A key missing from the dict gives a sheet without
    names. *)
Theorem create_output_excel_layout point_names_by_sheet :
  exists status analog,
    create_output_excel point_names_by_sheet
    = [(lit "Status", status); (lit "Analog", analog)] /\
    sheet_layout "Status" (dict_get point_names_by_sheet "Status" []) status /\
    sheet_layout "Analog" (dict_get point_names_by_sheet "Analog" []) analog.
Proof. exact (create_output_excel_sheets point_names_by_sheet). Qed.

Lemma create_output_excel_layout_witness :
  exists status analog,
    create_output_excel [(lit "Analog", [lit "Bus Volts"]); (lit "Other", [lit "x"])]
    = [(lit "Status", status); (lit "Analog", analog)] /\
    ws_cell status 6 1 = empty_cell /\
    ws_cell analog 6 1 = Cell (Some (lit "Bus Volts")) false /\
    ws_cell analog 7 1 = empty_cell.
Proof.
  destruct (create_output_excel_layout
              [(lit "Analog", [lit "Bus Volts"]); (lit "Other", [lit "x"])])
    as [status [analog [Hwb [[_ [_ [_ [Hs _]]]] [_ [_ [_ [Ha _]]]]]]]].
  exists status, analog. split; [exact Hwb|].
  split; [exact (Hs 0) | split; [exact (Ha 0) | exact (Ha 1)]].
Defined.

(** ** From the PDF files to the cells *)

Lemma extracted_no_artifacts name c :
  extracted name -> In c (lit "|[](){}_") -> ~ In c name.
Proof.
  intros [nt [-> [[Hclean _] _]]] Hc Hcn.
  assert (Hart : artifact c = true).
  { unfold artifact. apply existsb_exists. exists c. split; [exact Hc|].
    apply Ascii.eqb_refl. }
  apply join_chars in Hcn. destruct Hcn as [-> | [t [Ht Hct]]]; [discriminate|].
  rewrite Forall_forall in Hclean. destruct (Hclean t Ht) as [_ Hnoart].
  rewrite Forall_forall in Hnoart. rewrite (Hnoart c Hct) in Hart. discriminate.
Qed.

Lemma flat_map_extracted world files :
  Forall extracted (flat_map (file_names world) files).
Proof.
  induction files as [|f files IH]; cbn [flat_map]; [constructor|].
  apply Forall_app. split; [apply file_names_extracted | exact IH].
Qed.

Lemma sheet_layout_value sheet_name point_names ws row col value :
  sheet_layout sheet_name point_names ws ->
  6 <= row -> cell_value (ws_cell ws row col) = Some value ->
  col = 1 /\ In value point_names.
Proof.
  intros [_ [_ [_ [Hnames Hempty]]]] Hrow Hval.
  destruct (Nat.eq_dec col 1) as [-> | Hcol].
  - split; [reflexivity|].
    specialize (Hnames (row - 6)). replace (6 + (row - 6)) with row in Hnames by lia.
    rewrite Hnames in Hval. cbn [cell_value] in Hval.
    eapply nth_error_In. exact Hval.
  - rewrite (Hempty row col (or_introl Hcol)) in Hval. discriminate.
Qed.

(** X12. Whatever [main] writes below the header rows of a sheet is a point
    name that passed the validator: a value found in row 6 or below of any
    sheet of the saved workbook stands in column 1, satisfies
    [is_valid_point_name] and contains none of the characters "|", "[",
    "]", "(", ")", "{", "}", "_". *)
Theorem workbook_names_are_valid
        input_exists listing world code wb title ws row col value :
  main input_exists listing world = Returns (code, Some wb) ->
  In (title, ws) wb ->
  6 <= row ->
  cell_value (ws_cell ws row col) = Some value ->
  col = 1 /\
  is_valid_point_name value = true /\
  (forall c, In c (lit "|[](){}_") -> ~ In c value).
Proof.
  intros Hmain Hin Hrow Hval.
  destruct (main_two_cases input_exists listing world) as [Hno Hyes].
  assert (Hex : input_exists = true /\ filter (endswith ".pdf") listing <> []).
  { destruct input_exists.
    - split; [reflexivity|]. intros E. rewrite (Hno (or_intror E)) in Hmain.
      discriminate.
    - rewrite (Hno (or_introl eq_refl)) in Hmain. discriminate. }
  destruct Hex as [He Hpdf]. rewrite (Hyes He Hpdf) in Hmain.
  injection Hmain as _ Hwb.
  match type of Hwb with create_output_excel ?d = _ =>
    destruct (create_output_excel_sheets d) as [status [analog [Hbook [Hs Ha]]]]
  end.
  rewrite Hbook in Hwb. subst wb.
  cbn [dict_get dict_lookup] in Hs, Ha.
  change (str_eqb "Status" "Status") with true in Hs.
  change (str_eqb "Status" "Analog") with false in Ha.
  change (str_eqb "Analog" "Analog") with true in Ha.
  cbv iota in Hs, Ha.
  assert (Hname : exists names, Forall extracted names /\ In value names /\ col = 1).
  { destruct Hin as [Hin | [Hin | []]]; injection Hin as _ <-.
    - destruct (sheet_layout_value _ _ _ _ _ _ Hs Hrow Hval) as [Hc Hv].
      eexists. split; [apply flat_map_extracted | split; [exact Hv | exact Hc]].
    - destruct (sheet_layout_value _ _ _ _ _ _ Ha Hrow Hval) as [Hc Hv].
      eexists. split; [apply flat_map_extracted | split; [exact Hv | exact Hc]]. }
  destruct Hname as [names [Hall [Hv Hc]]].
  rewrite Forall_forall in Hall. specialize (Hall value Hv).
  split; [exact Hc|]. split.
  - destruct Hall as [_ [_ [_ [_ H]]]]. exact H.
  - intros c. apply extracted_no_artifacts. exact Hall.
Qed.

Lemma workbook_names_are_valid_witness :
  1 = 1 /\
  is_valid_point_name "PumpA Run" = true /\
  (forall c, In c (lit "|[](){}_") -> ~ In c (lit "PumpA Run")).
Proof.
  eapply (workbook_names_are_valid true [lit "rtu_sh1.pdf"]
            (fun _ => World (Some (Returns [Some (lit "1 | Pump_A Run | x")]))
                            None (false, false) (Raises External)
                            (fun _ => Raises External))
            0 _ (lit "Status") _ 6 1 (lit "PumpA Run")).
  - vm_compute. reflexivity.
  - left. reflexivity.
  - lia.
  - reflexivity.
Defined.

(** ** The cleaner only deletes *)

Lemma filter_length_at_most {A : Type} (f : A -> bool) l :
  length (filter f l) <= length l.
Proof.
  induction l as [|x l IH]; simpl; [lia|]. destruct (f x); simpl; lia.
Qed.

Lemma strip_length s : length (strip s) <= length s.
Proof.
  unfold strip.
  destruct (lstrip_suffix s) as [a [Ha _]].
  destruct (rstrip_prefix (lstrip s)) as [b [Hb _]].
  rewrite Ha at 2. rewrite Hb at 2. rewrite !length_app. lia.
Qed.

Lemma spec_drop_l_length s : length (spec_drop_l s) <= length s.
Proof.
  destruct s as [|a [|c r]]; simpl; try lia.
  destruct (Ascii.eqb a "l" && isupper c); simpl; lia.
Qed.

Lemma spec_drop_slash_length s : length (spec_drop_slash s) <= length s.
Proof.
  destruct s as [|a [|c r]]; simpl; try lia.
  destruct (Ascii.eqb a "/"); simpl; lia.
Qed.

(** X13. [clean_ocr_artifacts] only deletes: the cleaned token is never
    longer than the token, every character of it occurs in the token, and
    a token without letters never gains one. *)
Theorem clean_ocr_artifacts_only_deletes token cleaned :
  clean_ocr_artifacts token = Ok cleaned ->
  length cleaned <= length token /\
  (forall c, In c cleaned -> In c token) /\
  (existsb isalpha token = false -> existsb isalpha cleaned = false).
Proof.
  rewrite clean_ocr_artifacts_ok. intros H. injection H as <-.
  split; [| split].
  - unfold spec_clean. rewrite delete_chars_remove_artifacts.
    pose proof (strip_length (spec_drop_slash (spec_drop_l (remove_artifacts token)))).
    pose proof (spec_drop_slash_length (spec_drop_l (remove_artifacts token))).
    pose proof (spec_drop_l_length (remove_artifacts token)).
    pose proof (filter_length_at_most (fun c => negb (artifact c)) token).
    unfold remove_artifacts in *. lia.
  - intros c Hc. apply spec_clean_chars in Hc. tauto.
  - intros Hno. destruct (existsb isalpha (spec_clean token)) eqn:E; [| reflexivity].
    apply existsb_exists in E. destruct E as [c [Hc Ha]].
    apply spec_clean_chars in Hc. destruct Hc as [Hc _].
    assert (Hyes : existsb isalpha token = true)
      by (apply existsb_exists; eauto).
    congruence.
Qed.

Lemma clean_ocr_artifacts_only_deletes_witness :
  length (lit "Level") <= length (lit "[/Level]_") /\
  (forall c, In c (lit "Level") -> In c (lit "[/Level]_")) /\
  (existsb isalpha (lit "[/Level]_") = false -> existsb isalpha (lit "Level") = false).
Proof.
  apply (clean_ocr_artifacts_only_deletes (lit "[/Level]_") (lit "Level")).
  reflexivity.
Defined.
